(** * Prompt queue system: a shallow embedding and its properties

    The development follows [prompt_queue_system.py] and
    [dual_output_agent.py].

    Modelling conventions.
    - A Python [str] is a Rocq [string]; the character with code [n] stands
      for the code point [n], so the model covers text whose code points are
      below 256.  [isspace] and [lower] follow Python on that range.
    - The two directories [queued/] and [run/] are finite maps from entry
      names to nodes.  A node is a plain file or a directory of plain files.
    - [datetime.now()] reads a clock: the [n]-th reading of a run is
      [clock n], and the number of readings taken so far is part of the
      state.
    - Exceptions are values of type [error]; a raised exception ends the
      computation (the source catches none).
    - [json.dumps] and [json.loads] are modelled on the documents the
      program writes: objects, arrays, strings, numbers kept as lexemes.
    - A plain file holds text; its content is the text [read_text]
      returns for it.
    - The agent writes below a third finite map, the directory it is
      started in; the output directory is addressed by a relative path,
      normalised as [pathlib] does.
    - [print] output is not modelled. *)

From Stdlib Require Import Ascii NArith.
From stdpp Require Import gmap strings list sorting.

Set Warnings "-register-all,-clear-no-such-hyp".

(** ** Python string primitives *)

Module PyStr.

Definition code (c : ascii) : N := N_of_ascii c.

  (** [str.isspace] on one character (code points below 256). *)
Definition isspace (c : ascii) : bool :=
    let n := code c in
    (((9 <=? n) && (n <=? 13)) || ((28 <=? n) && (n <=? 32))
     || (n =? 133) || (n =? 160))%N.

  (** [str.lower] on one character (code points below 256). *)
Definition lower_char (c : ascii) : ascii :=
    let n := code c in
    if (((65 <=? n) && (n <=? 90))
        || ((192 <=? n) && (n <=? 222) && negb (n =? 215)))%N
    then ascii_of_N (n + 32) else c.

Fixpoint lower (s : string) : string :=
    match s with
    | "" => ""
    | String c r => String (lower_char c) (lower r)
    end.

Fixpoint lstrip (s : string) : string :=
    match s with
    | "" => ""
    | String c r => if isspace c then lstrip r else s
    end.

Fixpoint rstrip (s : string) : string :=
    match s with
    | "" => ""
    | String c r =>
        match rstrip r with
        | "" => if isspace c then "" else String c ""
        | r' => String c r'
        end
    end.

  (** [s.strip()] *)
Definition strip (s : string) : string := lstrip (rstrip s).

  (** [s.startswith(p)] *)
Definition startswith (p s : string) : bool := String.prefix p s.

  (** [p in s] *)
Fixpoint contains (p s : string) : bool :=
    startswith p s ||
    match s with
    | "" => false
    | String _ r => contains p r
    end.

  (** [c in s] for a single character. *)
Fixpoint has_char (c : ascii) (s : string) : bool :=
    match s with
    | "" => false
    | String d r => if Ascii.eqb d c then true else has_char c r
    end.

  (** [s.split(sep)] for a one-character separator: never empty. *)
Fixpoint split (sep : ascii) (s : string) : list string :=
    match s with
    | "" => [""]
    | String c r =>
        if Ascii.eqb c sep then "" :: split sep r
        else match split sep r with
             | h :: t => String c h :: t
             | [] => [String c ""]
             end
    end.

  (** [s.split(sep, 1)] for a separator that occurs in [s]:
      the text before the first [sep] and the text after it. *)
Fixpoint split_once (sep : ascii) (s : string) : option (string * string) :=
    match s with
    | "" => None
    | String c r =>
        if Ascii.eqb c sep then Some ("", r)
        else match split_once sep r with
             | Some (k, v) => Some (String c k, v)
             | None => None
             end
    end.

  (** [sep.join(l)] *)
Fixpoint join (sep : string) (l : list string) : string :=
    match l with
    | [] => ""
    | [x] => x
    | x :: r => x +:+ sep +:+ join sep r
    end.

  (** [s[n:]] *)
Fixpoint drop (n : nat) (s : string) : string :=
  match n, s with
  | O, _ => s
  | S _, "" => ""
  | S n', String _ r => drop n' r
  end.

(** [s[1:]] *)
Definition tail (s : string) : string :=
    match s with
    | "" => ""
    | String _ r => r
    end.

Definition nl : ascii := "010"%char.
Definition newline : string := String nl "".

End PyStr.

Import PyStr.

(** ** The decision agent: three fixed template pairs
    ([dual_output_agent.py]) *)

Module DualOutputDecisionAgent.

Definition emergency_room_logic_text : string :=
    "EMERGENCY ROOM DECISION LOGIC
================================

IF patient_experiencing_symptoms THEN
    IF severe_symptoms = TRUE THEN
        action = call_911_immediately
        outcome = emergency_transport
    ELSE IF severe_symptoms = FALSE THEN
        evaluate_urgency_level()
        
        IF urgency_level = HIGH THEN
            IF urgent_care_available = TRUE THEN
                action = visit_emergency_room
                outcome = receive_urgent_care
            ELSE
                action = schedule_primary_care
                outcome = receive_standard_care
        ELSE IF urgency_level = LOW THEN
            action = schedule_primary_care
            outcome = receive_standard_care
        END IF
    END IF
END IF

CONDITION DEFINITIONS:
- severe_symptoms: chest_pain OR difficulty_breathing OR severe_bleeding OR loss_of_consciousness
- high_urgency: temperature > 39" +:+ String "176"%char ""
    +:+ "C OR severe_pain OR breathing_difficulty
- urgent_care_available: emergency_room_wait_time < 2_hours

ACTION PRIORITIES:
1. life_threatening = call_911
2. high_urgency = emergency_room
3. low_urgency = primary_care
".

Definition emergency_room_mermaid_chart : string :=
    "```mermaid
flowchart TD
    A[Patient experiencing symptoms] --> B{Severe symptoms?}
    B -->|Yes| C[Call 911 immediately]
    B -->|No| D[Evaluate urgency level]
    C --> E[Emergency transport]
    D --> F{Urgent care needed?}
    F -->|High urgency| G{Emergency room available?}
    F -->|Low urgency| H[Schedule primary care]
    G -->|Yes| I[Visit emergency room]
    G -->|No| H
    H --> J[Receive standard care]
    I --> K[Receive urgent care]
    E --> K
    J --> L[Decision complete]
    K --> L
```".

Definition software_deployment_logic_text : string :=
    "SOFTWARE DEPLOYMENT DECISION LOGIC
===================================

IF code_ready_for_deployment THEN
    IF all_tests_passing = TRUE THEN
        IF code_review_required = TRUE THEN
            request_code_review()
            
            IF review_approved = TRUE THEN
                proceed_to_staging()
            ELSE
                fix_review_comments()
                GOTO code_review_required
            END IF
        ELSE
            proceed_to_staging()
        END IF
        
        staging_deployment()
        
        IF staging_tests_pass = TRUE THEN
            production_deployment()
            monitor_deployment()
            outcome = deployment_successful
        ELSE
            rollback_deployment()
            outcome = deployment_failed
        END IF
    ELSE
        fix_failing_tests()
        GOTO all_tests_passing
    END IF
END IF

GATE CONDITIONS:
- all_tests_passing: unit_tests AND integration_tests AND security_tests
- code_review_required: team_size > 3 OR production_system
- staging_tests_pass: functional_tests AND performance_tests

ROLLBACK TRIGGERS:
- error_rate > 1%
- response_time > 2x_baseline
- critical_functionality_broken
".

Definition software_deployment_mermaid_chart : string :=
    "```mermaid
flowchart TD
    A[Code ready for deployment] --> B{All tests passing?}
    B -->|No| C[Fix failing tests]
    C --> B
    B -->|Yes| D{Code review required?}
    D -->|Yes| E[Request code review]
    D -->|No| F[Proceed to staging]
    E --> G{Review approved?}
    G -->|No| H[Fix review comments]
    H --> E
    G -->|Yes| F
    F --> I[Staging deployment]
    I --> J{Staging tests pass?}
    J -->|No| K[Rollback deployment]
    J -->|Yes| L[Production deployment]
    L --> M[Monitor deployment]
    M --> N[Deployment successful]
    K --> O[Deployment failed]
    N --> P[Process complete]
    O --> P
```".

Definition business_investment_logic_text : string :=
    "BUSINESS INVESTMENT DECISION LOGIC
===================================

IF investment_opportunity_identified THEN
    conduct_market_research()
    
    IF market_size > $1M THEN
        analyze_competitive_landscape()
        
        IF competitive_advantage = TRUE THEN
            conduct_financial_analysis()
            
            IF ROI > 20% AND payback_period < 3_years THEN
                assess_risks()
                
                IF risk_score < risk_tolerance THEN
                    action = proceed_with_investment
                    outcome = investment_approved
                ELSE IF risk_score >= risk_tolerance THEN
                    IF renegotiation_possible = TRUE THEN
                        renegotiate_terms()
                        GOTO conduct_financial_analysis
                    ELSE
                        action = decline_investment
                        outcome = investment_rejected
                    END IF
                END IF
            ELSE
                action = decline_investment
                outcome = investment_rejected
            END IF
        ELSE
            action = decline_investment
            outcome = investment_rejected
        END IF
    ELSE
        action = decline_investment
        outcome = investment_rejected
    END IF
END IF

EVALUATION CRITERIA:
- market_size: total_addressable_market > $1M
- competitive_advantage: unique_value_proposition OR cost_advantage OR differentiation
- ROI_calculation: (expected_return - investment_cost) / investment_cost
- risk_score: market_risk + execution_risk + financial_risk + regulatory_risk
- risk_tolerance: organization_risk_appetite AND available_capital
".

Definition business_investment_mermaid_chart : string :=
    "```mermaid
flowchart TD
    A[Investment opportunity identified] --> B[Conduct market research]
    B --> C{Market size > $1M?}
    C -->|No| D[Decline investment]
    C -->|Yes| E[Analyze competitive landscape]
    E --> F{Competitive advantage?}
    F -->|No| D
    F -->|Yes| G[Conduct financial analysis]
    G --> H{ROI > 20% AND payback < 3 years?}
    H -->|No| D
    H -->|Yes| I[Assess risks]
    I --> J{Risk score < tolerance?}
    J -->|Yes| K[Proceed with investment]
    J -->|No| L{Renegotiation possible?}
    L -->|Yes| M[Renegotiate terms]
    M --> G
    L -->|No| D
    K --> N[Investment approved]
    D --> O[Investment rejected]
    N --> P[Decision complete]
    O --> P
```".

Definition create_emergency_room_logic : string * string :=
    (emergency_room_logic_text, emergency_room_mermaid_chart).

Definition create_software_deployment_logic : string * string :=
    (software_deployment_logic_text, software_deployment_mermaid_chart).

Definition create_business_investment_logic : string * string :=
    (business_investment_logic_text, business_investment_mermaid_chart).

End DualOutputDecisionAgent.

(** ** [datetime]: the two formats the program prints *)

Module Datetime.

Local Open Scope N_scope.

Record datetime := {
  year : N; month : N; day : N;
  hour : N; minute : N; second : N; microsecond : N }.

(** The ranges Python's [datetime] type guarantees. *)
Definition valid (t : datetime) : Prop :=
  1 ≤ year t ≤ 9999 ∧ 1 ≤ month t ≤ 12 ∧ 1 ≤ day t ≤ 31 ∧
  hour t < 24 ∧ minute t < 60 ∧ second t < 60 ∧ microsecond t < 1000000.

Definition digit (n : N) : ascii := ascii_of_N (48 + n mod 10).

(** [w] decimal digits of [n], most significant first ([%0wd] for
    [n < 10^w]). *)
Fixpoint digits (w : nat) (n : N) : string :=
  match w with
  | O => ""
  | S w' => digits w' (n / 10) +:+ String (digit n) ""
  end.

(** [t.strftime("%Y%m%d_%H%M%S")] *)
Definition strftime (t : datetime) : string :=
  digits 4 (year t) +:+ digits 2 (month t) +:+ digits 2 (day t) +:+ "_"
  +:+ digits 2 (hour t) +:+ digits 2 (minute t) +:+ digits 2 (second t).

(** [t.isoformat()] for a naive datetime. *)
Definition isoformat (t : datetime) : string :=
  digits 4 (year t) +:+ "-" +:+ digits 2 (month t) +:+ "-"
  +:+ digits 2 (day t) +:+ "T" +:+ digits 2 (hour t) +:+ ":"
  +:+ digits 2 (minute t) +:+ ":" +:+ digits 2 (second t)
  +:+ (if decide (microsecond t = 0) then ""
       else "." +:+ digits 6 (microsecond t)).

(** A recognizer for the extended ISO-8601 form
    [YYYY-MM-DDThh:mm:ss] with an optional six-digit fraction. *)
Definition digit_val (c : ascii) : option N :=
  let n := N_of_ascii c in
  if decide (48 ≤ n ≤ 57) then Some (n - 48) else None.

Fixpoint number (w : nat) (acc : N) (s : string) : option (N * string) :=
  match w with
  | O => Some (acc, s)
  | S w' =>
      match s with
      | String c r =>
          match digit_val c with
          | Some d => number w' (10 * acc + d) r
          | None => None
          end
      | "" => None
      end
  end.

Definition expect (c : ascii) (s : string) : option string :=
  match s with
  | String d r => if Ascii.eqb d c then Some r else None
  | "" => None
  end.

Definition is_iso8601 (s : string) : bool :=
  match
    '(y, s) ← number 4 0 s; s ← expect "-" s;
    '(mo, s) ← number 2 0 s; s ← expect "-" s;
    '(d, s) ← number 2 0 s; s ← expect "T" s;
    '(h, s) ← number 2 0 s; s ← expect ":" s;
    '(mi, s) ← number 2 0 s; s ← expect ":" s;
    '(se, s) ← number 2 0 s;
    frac ← match s with
           | "" => Some true
           | String c r =>
               if Ascii.eqb c "." then
                 '(_, r') ← number 6 0 r; Some (bool_decide (r' = ""))
               else Some false
           end;
    Some (frac && bool_decide (1 ≤ mo ≤ 12) && bool_decide (1 ≤ d ≤ 31)
          && bool_decide (h < 24) && bool_decide (mi < 60)
          && bool_decide (se < 60))
  with
  | Some b => b
  | None => false
  end.

End Datetime.

Import Datetime.


(** ** [json]: the encoder with [indent=2] and the decoder

    Numbers are kept as their lexemes.  The decoder accepts what
    [json.loads] accepts on a text of the model; an escape [\uXXXX] above
    [00ff] is accepted and kept in escaped form in the decoded text. *)

Module Json.

Inductive json :=
| JNull
| JBool (b : bool)
| JNumber (lexeme : string)
| JString (s : string)
| JArray (items : list json)
| JObject (members : list (string * json)).

Definition quote : ascii := "034"%char.
Definition backslash : ascii := "\"%char.

Definition hexdigit (n : N) : ascii :=
  if (n <? 10)%N then ascii_of_N (48 + n) else ascii_of_N (87 + n).

(** The replacement [ESCAPE_ASCII.sub] makes for one character. *)
Definition escape_char (c : ascii) : string :=
  let n := code c in
  if Ascii.eqb c backslash then String backslash (String backslash "")
  else if Ascii.eqb c quote then String backslash (String quote "")
  else if (n =? 8)%N then String backslash "b"
  else if (n =? 12)%N then String backslash "f"
  else if (n =? 10)%N then String backslash "n"
  else if (n =? 13)%N then String backslash "r"
  else if (n =? 9)%N then String backslash "t"
  else if ((32 <=? n) && (n <=? 126))%N then String c ""
  else String backslash
         (String "u" (String "0" (String "0"
           (String (hexdigit (n / 16)) (String (hexdigit (n mod 16)) ""))))).

Fixpoint escape (s : string) : string :=
  match s with
  | "" => ""
  | String c r => escape_char c +:+ escape r
  end.

(** [py_encode_basestring_ascii] *)
Definition encode_string (s : string) : string :=
  String quote (escape s +:+ String quote "").

Fixpoint spaces (n : nat) : string :=
  match n with
  | O => ""
  | S n' => String " " (spaces n')
  end.

Definition newline_indent (level : nat) : string :=
  String nl (spaces (2 * level)).

(** [json.dumps(v, indent=2)], at nesting depth [level]. *)
Fixpoint encode (level : nat) (v : json) : string :=
  match v with
  | JNull => "null"
  | JBool true => "true"
  | JBool false => "false"
  | JNumber lexeme => lexeme
  | JString s => encode_string s
  | JArray [] => "[]"
  | JArray items =>
      "[" +:+ newline_indent (S level)
      +:+ join ("," +:+ newline_indent (S level))
               (map (encode (S level)) items)
      +:+ newline_indent level +:+ "]"
  | JObject [] => "{}"
  | JObject members =>
      "{" +:+ newline_indent (S level)
      +:+ join ("," +:+ newline_indent (S level))
               (map (λ kv, match kv with
                           | (k, x) =>
                               encode_string k +:+ ": " +:+ encode (S level) x
                           end) members)
      +:+ newline_indent level +:+ "}"
  end.

Definition dumps (v : json) : string := encode 0 v.

(** *** Decoder *)

Definition is_ws (c : ascii) : bool :=
  Ascii.eqb c " " || Ascii.eqb c "009" || Ascii.eqb c "010"
  || Ascii.eqb c "013".

Fixpoint skip_ws (s : string) : string :=
  match s with
  | "" => ""
  | String c r => if is_ws c then skip_ws r else s
  end.

Definition hexval (c : ascii) : option N :=
  let n := code c in
  if ((48 <=? n) && (n <=? 57))%N then Some (n - 48)%N
  else if ((97 <=? n) && (n <=? 102))%N then Some (n - 87)%N
  else if ((65 <=? n) && (n <=? 70))%N then Some (n - 55)%N
  else None.

Definition hex4 (a b c d : ascii) : option N :=
  a ← hexval a; b ← hexval b; c ← hexval c; d ← hexval d;
  Some (((a * 16 + b) * 16 + c) * 16 + d)%N.

Definition cons_char (c : ascii) (p : string * string) : string * string :=
  (String c p.1, p.2).

(** A [\uXXXX] escape of a code point above 255 denotes a character that a
    string of the model cannot hold: the decoded text keeps the six
    characters of the escape as they stand. *)
Definition keep_escape (h1 h2 h3 h4 : ascii) (p : string * string)
  : string * string :=
  (String backslash
     (String "u" (String h1 (String h2 (String h3 (String h4 p.1))))), p.2).

(** [scanstring] in strict mode: the text after an opening quote up to the
    closing one, decoded, and the text that follows. *)
Fixpoint scanstring (s : string) : option (string * string) :=
  match s with
  | "" => None
  | String c r =>
      if Ascii.eqb c quote then Some ("", r)
      else if Ascii.eqb c backslash then
        match r with
        | "" => None
        | String e r' =>
            if Ascii.eqb e quote then cons_char quote <$> scanstring r'
            else if Ascii.eqb e backslash then
              cons_char backslash <$> scanstring r'
            else if Ascii.eqb e "/" then cons_char "/" <$> scanstring r'
            else if Ascii.eqb e "b" then cons_char "008" <$> scanstring r'
            else if Ascii.eqb e "f" then cons_char "012" <$> scanstring r'
            else if Ascii.eqb e "n" then cons_char "010" <$> scanstring r'
            else if Ascii.eqb e "r" then cons_char "013" <$> scanstring r'
            else if Ascii.eqb e "t" then cons_char "009" <$> scanstring r'
            else if Ascii.eqb e "u" then
              match r' with
              | String h1 (String h2 (String h3 (String h4 r''))) =>
                  match hex4 h1 h2 h3 h4 with
                  | Some n =>
                      if (n <? 256)%N
                      then cons_char (ascii_of_N n) <$> scanstring r''
                      else keep_escape h1 h2 h3 h4 <$> scanstring r''
                  | None => None
                  end
              | _ => None
              end
            else None
        end
      else if (code c <? 32)%N then None
      else cons_char c <$> scanstring r
  end.

Definition is_digit (c : ascii) : bool :=
  ((48 <=? code c) && (code c <=? 57))%N.

Fixpoint take_digits (s : string) : string * string :=
  match s with
  | "" => ("", "")
  | String c r =>
      if is_digit c then cons_char c (take_digits r) else ("", s)
  end.

(** [NUMBER_RE]: an optional minus sign, an integer part without leading
    zeros, an optional fraction and an optional exponent. *)
Definition scan_int (s : string) : option (string * string) :=
  match s with
  | String c r =>
      if Ascii.eqb c "0" then Some ("0", r)
      else if is_digit c then Some (cons_char c (take_digits r))
      else None
  | "" => None
  end.

Definition scan_frac (s : string) : string * string :=
  match s with
  | String c r =>
      if Ascii.eqb c "." then
        match take_digits r with
        | ("", _) => ("", s)
        | (ds, r') => (String c ds, r')
        end
      else ("", s)
  | "" => ("", s)
  end.

Definition scan_exp (s : string) : string * string :=
  match s with
  | String c r =>
      if Ascii.eqb c "e" || Ascii.eqb c "E" then
        let '(sign, r1) :=
          match r with
          | String g r1 =>
              if Ascii.eqb g "-" || Ascii.eqb g "+"
              then (String g "", r1) else ("", r)
          | "" => ("", r)
          end in
        match take_digits r1 with
        | ("", _) => ("", s)
        | (ds, r') => (String c (sign +:+ ds), r')
        end
      else ("", s)
  | "" => ("", s)
  end.

Definition scan_number (s : string) : option (string * string) :=
  let '(sign, s1) :=
    match s with
    | String c r => if Ascii.eqb c "-" then ("-", r) else ("", s)
    | "" => ("", s)
    end in
  '(int, s2) ← scan_int s1;
  let '(frac, s3) := scan_frac s2 in
  let '(exp, s4) := scan_exp s3 in
  Some (sign +:+ int +:+ frac +:+ exp, s4).

(** A later duplicate key replaces the value of the earlier one. *)
Fixpoint obj_set (k : string) (v : json) (o : list (string * json))
  : list (string * json) :=
  match o with
  | [] => [(k, v)]
  | (k', v') :: r =>
      if String.eqb k' k then (k', v) :: r else (k', v') :: obj_set k v r
  end.

Section decoder.
  Variable scan : string → option (json * string).

(** The loop of [JSONArray], entered before a value. *)
Fixpoint array_items (fuel : nat) (s : string)
  : option (list json * string) :=
  match fuel with
  | O => None
  | S fuel' =>
      '(v, r) ← scan s;
      match skip_ws r with
      | String c r' =>
          if Ascii.eqb c "]" then Some ([v], r')
          else if Ascii.eqb c "," then
            '(vs, r'') ← array_items fuel' (skip_ws r'); Some (v :: vs, r'')
          else None
      | "" => None
      end
  end.

(** The loop of [JSONObject], entered before the quote of a key. *)
Fixpoint object_members (fuel : nat) (acc : list (string * json))
  (s : string) : option (list (string * json) * string) :=
  match fuel with
  | O => None
  | S fuel' =>
      match s with
      | String q r =>
          if Ascii.eqb q quote then
            '(k, r1) ← scanstring r;
            match skip_ws r1 with
            | String c r2 =>
                if Ascii.eqb c ":" then
                  '(v, r3) ← scan (skip_ws r2);
                  let acc' := obj_set k v acc in
                  match skip_ws r3 with
                  | String d r4 =>
                      if Ascii.eqb d "}" then Some (acc', r4)
                      else if Ascii.eqb d "," then
                        object_members fuel' acc' (skip_ws r4)
                      else None
                  | "" => None
                  end
                else None
            | "" => None
            end
          else None
      | "" => None
      end
  end.

End decoder.

(** [scan_once] *)
Fixpoint scan_once (fuel : nat) (s : string) : option (json * string) :=
  match fuel with
  | O => None
  | S fuel' =>
      match s with
      | "" => None
      | String c r =>
          if Ascii.eqb c quote then
            '(x, r') ← scanstring r; Some (JString x, r')
          else if Ascii.eqb c "{" then
            match skip_ws r with
            | String d r' =>
                if Ascii.eqb d "}" then Some (JObject [], r')
                else '(o, r'') ← object_members (scan_once fuel') fuel' []
                                   (skip_ws r);
                     Some (JObject o, r'')
            | "" => None
            end
          else if Ascii.eqb c "[" then
            match skip_ws r with
            | String d r' =>
                if Ascii.eqb d "]" then Some (JArray [], r')
                else '(l, r'') ← array_items (scan_once fuel') fuel'
                                   (skip_ws r);
                     Some (JArray l, r'')
            | "" => None
            end
          else if startswith "null" s then Some (JNull, drop 4 s)
          else if startswith "true" s then Some (JBool true, drop 4 s)
          else if startswith "false" s then
            Some (JBool false, drop 5 s)
          else
            match scan_number s with
            | Some (lexeme, r') => Some (JNumber lexeme, r')
            | None =>
                if startswith "NaN" s then
                  Some (JNumber "NaN", drop 3 s)
                else if startswith "Infinity" s then
                  Some (JNumber "Infinity", drop 8 s)
                else if startswith "-Infinity" s then
                  Some (JNumber "-Infinity", drop 9 s)
                else None
            end
      end
  end.

(** [json.loads] on a text of the model: [None] stands for
    [JSONDecodeError]. *)
Definition loads (s : string) : option json :=
  match scan_once (S (String.length s)) (skip_ws s) with
  | Some (v, r) => if String.eqb (skip_ws r) "" then Some v else None
  | None => None
  end.

(** [d.get(k)] on a decoded object. *)
Fixpoint member (k : string) (o : list (string * json)) : option json :=
  match o with
  | [] => None
  | (k', v) :: r => if String.eqb k' k then Some v else member k r
  end.

Definition field (k : string) (v : json) : option json :=
  match v with
  | JObject o => member k o
  | _ => None
  end.

End Json.

Import Json.

(** ** The file system, the clock and exceptions *)

(** A node is a plain file that holds text, with the text [read_text]
    returns for it (decoded, line ends as read), or a directory of such
    files.  A plain file whose bytes do not decode has no counterpart
    here: what is proved about reading a prompt takes the outcome of
    [read_text] as its premise. *)
Inductive node :=
| File (content : string)
| Dir (files : gmap string string).

Inductive error :=
| FileNotFoundError
| IsADirectoryError
| FileExistsError
| NotADirectoryError
| JSONDecodeError
| ValueError
| NestedDirectory.
(** [NestedDirectory] marks the one situation the two-level file system
    cannot express: moving a directory into an archive directory. *)

Record world := {
  queued : gmap string node;
  run : gmap string node;
  clock : nat → datetime;
  ticks : nat }.

Inductive outcome (A : Type) :=
| Raise (e : error)
| Return (a : A) (w : world).
Arguments Raise {A} e.
Arguments Return {A} a w.

Definition M (A : Type) : Type := world → outcome A.

Definition raise {A} (e : error) : M A := λ _, Raise e.

#[global] Instance M_ret : MRet M := λ A a w, Return a w.
#[global] Instance M_bind : MBind M := λ A B k m w,
  match m w with
  | Raise e => Raise e
  | Return a w' => k a w'
  end.

(** [datetime.now()] *)
Definition now : M datetime :=
  λ w, Return (clock w (ticks w))
         {| queued := queued w; run := run w; clock := clock w;
            ticks := S (ticks w) |}.

Definition set_queued (q : gmap string node) : M unit :=
  λ w, Return tt {| queued := q; run := run w; clock := clock w;
                    ticks := ticks w |}.

Definition set_run (r : gmap string node) : M unit :=
  λ w, Return tt {| queued := queued w; run := r; clock := clock w;
                    ticks := ticks w |}.

Definition get_queued : M (gmap string node) := λ w, Return (queued w) w.
Definition get_run : M (gmap string node) := λ w, Return (run w) w.

(** [for x in l: body(x)], collecting the appended results. *)
Fixpoint for_each {A B} (body : A → M B) (l : list A) : M (list B) :=
  match l with
  | [] => mret []
  | x :: r => b ← body x; bs ← for_each body r; mret (b :: bs)
  end.

(** ** Paths *)

(** [s.endswith(suffix)] *)
Fixpoint endswith (suffix s : string) : bool :=
  String.eqb suffix s ||
  match s with
  | "" => false
  | String _ r => endswith suffix r
  end.

(** [name.rfind('.')] *)
Fixpoint rfind_dot (s : string) : option nat :=
  match s with
  | "" => None
  | String c r =>
      match rfind_dot r with
      | Some i => Some (S i)
      | None => if Ascii.eqb c "." then Some 0 else None
      end
  end.

(** [s[:n]] *)
Fixpoint take (n : nat) (s : string) : string :=
  match n, s with
  | O, _ => ""
  | S _, "" => ""
  | S n', String c r => String c (take n' r)
  end.

(** [PurePath.stem] *)
Definition stem (name : string) : string :=
  match rfind_dot name with
  | Some i =>
      if bool_decide (0 < i < String.length name - 1) then take i name
      else name
  | None => name
  end.

(** ** [PromptQueueSystem] *)

Module PromptQueueSystem.

Import DualOutputDecisionAgent.

(** The names a non-recursive [glob(pattern)] of the queue directory
    yields, for the two patterns the program uses. *)
Definition glob (suffix : string) (d : gmap string node) : list string :=
  filter (λ name, endswith suffix name = true) (map_to_list d).*1.

Definition get_queued_prompts (w : world) : list string :=
  let txt_files := glob ".txt" (queued w) in
  let md_files := glob ".md" (queued w) in
  merge_sort String.le (txt_files ++ md_files).

(** [prompt_file.read_text(encoding='utf-8')] in the queue directory, on
    the two kinds of entries of the model. *)
Definition read_text (name : string) : M string :=
  λ w, match queued w !! name with
       | Some (File c) => Return c w
       | Some (Dir _) => Raise IsADirectoryError
       | None => Raise FileNotFoundError
       end.

(** [metadata[key] = value] on an insertion-ordered [dict]. *)
Fixpoint dict_set (k v : string) (d : list (string * string))
  : list (string * string) :=
  match d with
  | [] => [(k, v)]
  | (k', v') :: r =>
      if String.eqb k' k then (k', v) :: r else (k', v') :: dict_set k v r
  end.

Definition is_metadata_line (line : string) : bool :=
  startswith "#" line && has_char ":" line.

(** One iteration of the parsing loop.  The two-way unpacking of
    [line[1:].split(':', 1)] cannot fail on a metadata line; the [None]
    branch stands for the [ValueError] it would raise. *)
Definition parse_line (st : option (list (string * string) * list string))
  (raw : string) : option (list (string * string) * list string) :=
  '(metadata, prompt_content) ← st;
  let line := strip raw in
  if is_metadata_line line then
    '(key, value) ← split_once ":" (tail line);
    Some (dict_set (strip key) (strip value) metadata, prompt_content)
  else if startswith "---" line then Some (metadata, prompt_content)
  else Some (metadata, prompt_content ++ [line]).

(** The pure part of [read_prompt_content]: metadata and body of a text. *)
Definition parse_prompt (text : string)
  : option (list (string * string) * string) :=
  let lines := split nl (strip text) in
  '(metadata, prompt_content) ← foldl parse_line (Some ([], [])) lines;
  Some (metadata, strip (join newline prompt_content)).

Record prompt_data := {
  filename : string;
  content : string;
  metadata : list (string * string);
  timestamp : string }.

Definition read_prompt_content (prompt_file : string) : M prompt_data :=
  text ← read_text prompt_file;
  match parse_prompt text with
  | None => raise ValueError
  | Some (md, body) =>
      t ← now;
      mret {| filename := prompt_file; content := body; metadata := md;
             timestamp := isoformat t |}
  end.

Inductive topic :=
| emergency_room
| software_deployment
| business_investment
| generic_decision.

Definition topic_name (t : topic) : string :=
  match t with
  | emergency_room => "emergency_room"
  | software_deployment => "software_deployment"
  | business_investment => "business_investment"
  | generic_decision => "generic_decision"
  end.

Definition extract_topic (content : string) : topic :=
  let content_lower := lower content in
  if contains "emergency" content_lower then emergency_room
  else if contains "software" content_lower
          || contains "deployment" content_lower then software_deployment
  else if contains "business" content_lower
          || contains "investment" content_lower then business_investment
  else generic_decision.

Record result := {
  prompt : prompt_data;
  res_topic : topic;
  logic_text : string;
  mermaid_chart : string;
  processed_at : string }.

(** The template pair [process_prompt] selects. *)
Definition select_logic (content : string) : string * string :=
  if contains "emergency" (lower content)
     || contains "hospital" (lower content)
  then create_emergency_room_logic
  else if contains "software" (lower content)
          || contains "deployment" (lower content)
  then create_software_deployment_logic
  else if contains "business" (lower content)
          || contains "investment" (lower content)
  then create_business_investment_logic
  else create_business_investment_logic.

Definition process_prompt (data : prompt_data) : M result :=
  let topic := extract_topic (content data) in
  let '(logic, mermaid) := select_logic (content data) in
  t ← now;
  mret {| prompt := data; res_topic := topic; logic_text := logic;
         mermaid_chart := mermaid; processed_at := isoformat t |}.

(** The metadata [dict] of [move_to_run], as the value [json.dumps]
    receives. *)
Definition metadata_json (original_prompt processed_at topic : string)
  : json :=
  JObject [("original_prompt", JString original_prompt);
           ("processed_at", JString processed_at);
           ("topic", JString topic);
           ("files_generated",
             JArray [JString "decision_logic.txt"; JString "flowchart.md"])].

Definition metadata_doc (name : string) (r : result) : json :=
  metadata_json name (processed_at r) (topic_name (res_topic r)).

Record files_created := {
  prompt_file : list string;
  logic_file : list string;
  mermaid_file : list string;
  metadata_file : list string }.

(** [run_subdir.mkdir(exist_ok=True)]: the files of the directory after
    the call. *)
Definition mkdir_exist_ok (d : string) : M (gmap string string) :=
  r ← get_run;
  match r !! d with
  | None => set_run (<[d := Dir ∅]> r) ;; mret ∅
  | Some (Dir files) => mret files
  | Some (File _) => raise FileExistsError
  end.

(** [path.write_text(text)] inside the archive directory [d]. *)
Definition write_text (d name text : string) : M unit :=
  r ← get_run;
  match r !! d with
  | Some (Dir files) => set_run (<[d := Dir (<[name := text]> files)]> r)
  | _ => raise FileNotFoundError
  end.

(** [shutil.move] of a queued file to [run/d/name] (a rename). *)
Definition move (name d : string) : M unit :=
  q ← get_queued;
  match q !! name with
  | None => raise FileNotFoundError
  | Some (Dir _) => raise NestedDirectory
  | Some (File c) => set_queued (delete name q) ;; write_text d name c
  end.

Definition move_to_run (name : string) (r : result) : M files_created :=
  t ← now;
  let timestamp := strftime t in
  let base_name := stem name in
  let run_subdir := timestamp +:+ "_" +:+ base_name in
  mkdir_exist_ok run_subdir ;;
  move name run_subdir ;;
  write_text run_subdir "decision_logic.txt" (logic_text r) ;;
  write_text run_subdir "flowchart.md" (mermaid_chart r) ;;
  write_text run_subdir "execution_metadata.json"
    (dumps (metadata_doc name r)) ;;
  mret {| prompt_file := ["run"; run_subdir; name];
         logic_file := ["run"; run_subdir; "decision_logic.txt"];
         mermaid_file := ["run"; run_subdir; "flowchart.md"];
         metadata_file := ["run"; run_subdir; "execution_metadata.json"] |}.

Record execution_record := {
  original_file : string;
  rec_topic : topic;
  rec_files_created : files_created;
  rec_processed_at : string }.

Definition process_one (name : string) : M execution_record :=
  data ← read_prompt_content name;
  r ← process_prompt data;
  files ← move_to_run name r;
  mret {| original_file := name; rec_topic := res_topic r;
         rec_files_created := files; rec_processed_at := processed_at r |}.

Definition process_all_prompts : M (list execution_record) :=
  λ w, for_each process_one (get_queued_prompts w) w.

(** The names of the subdirectories of [run/], in the order of
    [sort(key=lambda x: x.name, reverse=True)]. *)
Definition is_dir (e : string * node) : bool :=
  match e.2 with
  | Dir _ => true
  | File _ => false
  end.

Definition run_subdirs (r : gmap string node) : list string :=
  merge_sort (flip String.le)
    (filter (λ e, is_dir e = true) (map_to_list r)).*1.

Definition load_metadata (r : gmap string node) (d : string)
  : M (list json) :=
  match r !! d with
  | Some (Dir files) =>
      match files !! "execution_metadata.json" with
      | Some text =>
          match loads text with
          | Some m => mret [m]
          | None => raise JSONDecodeError
          end
      | None => mret []
      end
  | _ => mret []
  end.

Definition get_run_history : M (list json) :=
  r ← get_run;
  records ← for_each (load_metadata r) (run_subdirs r);
  mret (concat records).

(** [prompt_file.write_text(text)] in the queue directory. *)
Definition write_prompt (name text : string) : M unit :=
  q ← get_queued;
  match q !! name with
  | Some (Dir _) => raise IsADirectoryError
  | _ => set_queued (<[name := File text]> q)
  end.

Definition sample_prompts : list (string * string) :=
  [("emergency_room_prompt.txt",
     join newline
       ["# Topic: Emergency Room Decision Making";
        ("# Description: NHS guidelines for when to visit emergency "
           +:+ "room");
        "";
        ("Create a decision-making flowchart for when patients should "
           +:+ "visit the emergency room during medical emergencies. "
           +:+ "Include criteria for severe symptoms, urgency levels, and "
           +:+ "appropriate care pathways.")]);
   ("software_deployment_prompt.md",
     join newline
       ["# Topic: Software Deployment";
        ("# Description: Decision tree for deploying software to "
           +:+ "production");
        "";
        ("Generate a comprehensive decision-making flowchart for "
           +:+ "software deployment processes. Include code review "
           +:+ "requirements, testing gates, staging validation, and "
           +:+ "rollback procedures.")]);
   ("business_investment_prompt.txt",
     join newline
       ["# Topic: Business Investment";
        "# Description: Investment decision framework for startups";
        "";
        ("Create a decision-making framework for evaluating business "
           +:+ "investment opportunities. Include market analysis, "
           +:+ "competitive assessment, financial evaluation, and risk "
           +:+ "assessment criteria.")])].

Definition create_sample_prompts : M unit :=
  for_each (λ prompt_data, write_prompt prompt_data.1 prompt_data.2)
    sample_prompts ;;
  mret tt.

(** [main], on a base directory whose [queued/] and [run/] exist; the
    result is the list of records the summary prints. *)
Definition main : M (list execution_record) :=
  λ w,
    let queued_prompts := get_queued_prompts w in
    ((if bool_decide (queued_prompts = []) then create_sample_prompts
      else mret tt) ;;
     process_all_prompts) w.

End PromptQueueSystem.

(** ** Notions used to state the properties *)

Import PromptQueueSystem.

(** [kw] occurs in the lowercased [text]. *)
Definition mentions (kw text : string) : Prop :=
  ∃ a b, lower text = a +:+ kw +:+ b.

(** The classifier as the specification words it: an ordered list of
    keyword groups, the first group with a member present wins, and the
    fallback applies when none matches. *)
Definition keyword_groups : list (topic * list string) :=
  [(emergency_room, ["emergency"]);
   (software_deployment, ["software"; "deployment"]);
   (business_investment, ["business"; "investment"])].

Definition ordered_first_match (present : string → Prop)
  `{∀ kw, Decision (present kw)} (groups : list (topic * list string))
  : topic :=
  match list_find (λ g, Exists present g.2) groups with
  | Some (_, g) => g.1
  | None => generic_decision
  end.

(** The name [move_to_run] gives the archive directory. *)
Definition run_subdir_name (t : datetime) (name : string) : string :=
  strftime t +:+ "_" +:+ stem name.

(** The files a directory of [run/] holds before [mkdir(exist_ok=True)]:
    none when it is absent; [None] when the name is taken by a plain
    file. *)
Definition existing_files (r : gmap string node) (d : string)
  : option (gmap string string) :=
  match r !! d with
  | None => Some ∅
  | Some (Dir files) => Some files
  | Some (File _) => None
  end.

(** The files of an archive directory after [move_to_run] has moved the
    prompt [name] with content [text] into a directory holding [files] and
    written the three documents. *)
Definition archive (files : gmap string string) (name text : string)
  (r : result) : gmap string string :=
  <["execution_metadata.json" := dumps (metadata_doc name r)]>
    (<["flowchart.md" := mermaid_chart r]>
       (<["decision_logic.txt" := logic_text r]> (<[name := text]> files))).

Definition created (d name : string) : files_created :=
  {| prompt_file := ["run"; d; name];
     logic_file := ["run"; d; "decision_logic.txt"];
     mermaid_file := ["run"; d; "flowchart.md"];
     metadata_file := ["run"; d; "execution_metadata.json"] |}.

(** The parsing loop read as two passes over the trimmed lines: the
    entry a metadata line contributes, and the test for the lines that
    reach the body. *)
Definition metadata_entry (line : string) : option (string * string) :=
  if is_metadata_line line then
    '(key, value) ← split_once ":" (tail line); Some (strip key, strip value)
  else None.

Definition is_body_line (line : string) : bool :=
  negb (is_metadata_line line) && negb (startswith "---" line).

Definition metadata_of (lines : list string) : list (string * string) :=
  foldl (λ md kv, dict_set kv.1 kv.2 md) [] (omap metadata_entry lines).

Definition body_of (lines : list string) : list string :=
  filter (λ line, is_body_line line = true) lines.

(** The lines the loop of [read_prompt_content] iterates over, trimmed. *)
Definition trimmed_lines (text : string) : list string :=
  strip <$> split nl (strip text).

(** The body [read_prompt_content] extracts from a text. *)
Definition body_text (text : string) : string :=
  strip (join newline (body_of (trimmed_lines text))).

(** What [read_prompt_content] and [process_prompt] compute for the file
    [name] with content [text], when the clock reads [t_read] and then
    [t_done]. *)
Definition parsed (name text : string) (t_read : datetime) : prompt_data :=
  {| filename := name; content := body_text text;
     metadata := metadata_of (trimmed_lines text);
     timestamp := isoformat t_read |}.

Definition processed (name text : string) (t_read t_done : datetime)
  : result :=
  {| prompt := parsed name text t_read;
     res_topic := extract_topic (body_text text);
     logic_text := (select_logic (body_text text)).1;
     mermaid_chart := (select_logic (body_text text)).2;
     processed_at := isoformat t_done |}.

(** The state after one prompt went through [process_one]: three clock
    readings, the file gone from the queue, the archive directory
    written. *)
Definition after_one (name text : string) (files : gmap string string)
  (w : world) : world :=
  let r := processed name text (clock w (ticks w)) (clock w (S (ticks w))) in
  let d := run_subdir_name (clock w (S (S (ticks w)))) name in
  {| queued := delete name (queued w);
     run := <[d := Dir (archive files name text r)]> (run w);
     clock := clock w; ticks := S (S (S (ticks w))) |}.

Definition record_of (name text : string) (w : world) : execution_record :=
  let r := processed name text (clock w (ticks w)) (clock w (S (ticks w))) in
  let d := run_subdir_name (clock w (S (S (ticks w)))) name in
  {| original_file := name; rec_topic := res_topic r;
     rec_files_created := created d name;
     rec_processed_at := processed_at r |}.

(** The archive directory names one pass assigns to [names], in order:
    each prompt takes three clock readings and the third names its
    directory. *)
Fixpoint pass_dirs (clk : nat → datetime) (tick : nat) (names : list string)
  : list string :=
  match names with
  | [] => []
  | name :: rest =>
      run_subdir_name (clk (S (S tick))) name
      :: pass_dirs clk (S (S (S tick))) rest
  end.

(** The [original_prompt] field of the metadata document of a node of
    [run/], when the node is a directory with a document that decodes to
    an object holding a string there. *)
Definition original_prompt_of (n : node) : option string :=
  match n with
  | Dir files =>
      text ← files !! "execution_metadata.json";
      m ← loads text;
      match field "original_prompt" m with
      | Some (JString s) => Some s
      | _ => None
      end
  | File _ => None
  end.

(** The archive directory [d] of the run root [r] references the prompt
    file [f]. *)
Definition references (r : gmap string node) (d f : string) : Prop :=
  ∃ n, r !! d = Some n ∧ original_prompt_of n = Some f.

(** The names of the entries of [r] that reference [f]. *)
Definition referencing (r : gmap string node) (f : string) : list string :=
  (filter (λ e, original_prompt_of e.2 = Some f) (map_to_list r)).*1.

(** The two extensions the scanner recognizes. *)
Definition recognized (name : string) : Prop :=
  endswith ".txt" name = true ∨ endswith ".md" name = true.

(** A clock that stands still, as within one second. *)
Definition noon : datetime :=
  {| year := 2024; month := 1; day := 2; hour := 12; minute := 0;
     second := 5; microsecond := 0 |}.

(** Two prompts that share the base name [a], an empty run root. *)
Definition two_prompts : world :=
  {| queued := {[ "a.md" := File "first prompt";
                  "a.txt" := File "second prompt" ]};
     run := ∅; clock := λ _, noon; ticks := 0 |}.

(** The body lines as the specification words them: every line that is
    not a metadata line and is not just the rule marker. *)
Definition body_as_specified (lines : list string) : list string :=
  filter (λ line, is_metadata_line line = false ∧ line ≠ "---") lines.

Definition draft_text : string :=
  join newline ["first"; "--- draft below"; "last"].

(** The end-to-end scenario of the specification: the file [note.txt]. *)
Definition note_text : string :=
  join newline ["# Topic: Emergency"; ""; "Patient has chest pain"].

Definition note_world (r : gmap string node) (clk : nat → datetime)
  (tick : nat) : world :=
  {| queued := {[ "note.txt" := File note_text ]}; run := r;
     clock := clk; ticks := tick |}.

(** The topic recorded in the metadata document among [files]. *)
Definition recorded_topic (files : gmap string string) : option json :=
  text ← files !! "execution_metadata.json";
  m ← loads text; field "topic" m.

(** A run root in which the directory name of the next prompt is taken. *)
Definition reuse_world : world :=
  {| queued := {[ "note.txt" := File "new prompt" ]};
     run := {[ "20240102_120005_note" :=
                 Dir {[ "note.txt" := "old prompt";
                        "execution_metadata.json" := "old metadata";
                        "summary.txt" := "kept" ]} ]};
     clock := λ _, noon; ticks := 0 |}.

Definition artifact_names : list string :=
  ["decision_logic.txt"; "flowchart.md"].

(** A prompt whose body names a hospital and no other keyword. *)
Definition hospital_text : string :=
  join newline ["# Topic: Visit"; ""; "Drive to the Hospital now"].

Definition hospital_world : world :=
  {| queued := {[ "visit.md" := File hospital_text ]}; run := ∅;
     clock := λ _, noon; ticks := 0 |}.

(** The metadata document a node of [run/] holds, and the record the
    history reader decodes from the entry [d] of the run root. *)
Definition document (n : node) : option string :=
  match n with
  | Dir files => files !! "execution_metadata.json"
  | File _ => None
  end.

Definition record (r : gmap string node) (d : string) : option json :=
  n ← r !! d; text ← document n; loads text.

Definition decodable (n : node) : Prop :=
  ∀ text, document n = Some text → is_Some (loads text).

(** A run root with two archives, a directory without a metadata document
    and a plain file. *)
Definition record_a : json :=
  metadata_json "a.txt" "2024-01-01T12:00:00" "generic_decision".

Definition record_b : json :=
  metadata_json "b.md" "2024-01-02T09:00:00" "emergency_room".

Definition history_run : gmap string node :=
  <["20240101_120000_a" :=
      Dir {[ "execution_metadata.json" := dumps record_a ]}]>
    (<["20240102_090000_b" :=
         Dir {[ "execution_metadata.json" := dumps record_b ]}]>
       (<["20240103_080000_c" := Dir {[ "notes.txt" := "no metadata" ]}]>
          (<["README.txt" := File "plain file"]> ∅))).

Definition history_world : world :=
  {| queued := ∅; run := history_run; clock := λ _, noon; ticks := 0 |}.

(** The same run root with one more archive, whose metadata document is
    cut short. *)
Definition broken_world : world :=
  {| queued := ∅;
     run := <["20240104_070000_d" :=
                Dir {[ "execution_metadata.json" := "{ broken" ]}]>
              history_run;
     clock := λ _, noon; ticks := 0 |}.

(** [s] holds whitespace only. *)
Fixpoint blank (s : string) : bool :=
  match s with
  | "" => true
  | String c r => isspace c && blank r
  end.

(** [d.get(k)] on an insertion-ordered [dict]. *)
Fixpoint dict_get (k : string) (d : list (string * string)) : option string :=
  match d with
  | [] => None
  | (k', v) :: r => if String.eqb k' k then Some v else dict_get k r
  end.

(** The metadata entries of a text, in the order of its lines. *)
Definition entries (text : string) : list (string * string) :=
  omap metadata_entry (trimmed_lines text).

(** The template pair that goes with a topic; the fallback topic shares the
    pair of [business_investment]. *)
Definition templates_of (t : topic) : string * string :=
  match t with
  | emergency_room => DualOutputDecisionAgent.create_emergency_room_logic
  | software_deployment =>
      DualOutputDecisionAgent.create_software_deployment_logic
  | business_investment =>
      DualOutputDecisionAgent.create_business_investment_logic
  | generic_decision =>
      DualOutputDecisionAgent.create_business_investment_logic
  end.

(** The sample prompts in the order of the scanner, and the queue after
    [create_sample_prompts]. *)
Definition sample_names : list string :=
  ["business_investment_prompt.txt"; "emergency_room_prompt.txt";
   "software_deployment_prompt.md"].

Definition with_samples (q : gmap string node) : gmap string node :=
  foldl (λ q prompt_data, <[prompt_data.1 := File prompt_data.2]> q) q
    sample_prompts.

(** ** [DualOutputDecisionAgent]: saving the outputs *)

(** The two methods below work in the directory the agent is started in;
    [cwd] maps its entries, plain files and directories of plain files.  A
    result is the returned value together with the directory afterwards, or
    the exception raised. *)

(** The components of a relative path as [pathlib] keeps them: empty
    components and [.] are dropped.  [None] for an absolute path and for a
    path with a [..] component, which lead out of [cwd]. *)
Definition parts (path : string) : option (list string) :=
  if startswith "/" path then None
  else
    let components := filter (λ c, c ≠ "" ∧ c ≠ ".") (split "/" path) in
    if bool_decide (".." ∈ components) then None else Some components.

(** [path.mkdir(exist_ok=True)], without [parents], for the path of the
    given components.  [None] where the call would make a directory inside
    a directory of [cwd], which the file system of the model cannot
    hold. *)
Definition mkdir_path (path : list string) (cwd : gmap string node)
  : option (error + gmap string node) :=
  match path with
  | [] => Some (inr cwd)
  | [name] =>
      match cwd !! name with
      | None => Some (inr (<[name := Dir ∅]> cwd))
      | Some (Dir _) => Some (inr cwd)
      | Some (File _) => Some (inl FileExistsError)
      end
  | parent :: name :: rest =>
      match cwd !! parent with
      | None => Some (inl FileNotFoundError)
      | Some (File _) => Some (inl NotADirectoryError)
      | Some (Dir files) =>
          match files !! name, rest with
          | Some _, [] => Some (inl FileExistsError)
          | Some _, _ :: _ => Some (inl NotADirectoryError)
          | None, [] => None
          | None, _ :: _ => Some (inl FileNotFoundError)
          end
      end
  end.

(** [open(path, 'w')] followed by [write(text)], for the path of the given
    components. *)
Definition write_file (path : list string) (text : string)
  (cwd : gmap string node) : error + gmap string node :=
  match path with
  | [] => inl IsADirectoryError
  | [name] =>
      match cwd !! name with
      | Some (Dir _) => inl IsADirectoryError
      | _ => inr (<[name := File text]> cwd)
      end
  | dir :: name :: rest =>
      match cwd !! dir with
      | None => inl FileNotFoundError
      | Some (File _) => inl NotADirectoryError
      | Some (Dir files) =>
          match rest with
          | [] => inr (<[dir := Dir (<[name := text]> files)]> cwd)
          | _ :: _ =>
              match files !! name with
              | Some _ => inl NotADirectoryError
              | None => inl FileNotFoundError
              end
          end
      end
  end.

Definition save_dual_outputs
  (topic logic_text mermaid_chart output_dir : string)
  (cwd : gmap string node)
  : option (error + (list string * list string) * gmap string node) :=
  match parts output_dir with
  | None => None
  | Some output_path =>
      match mkdir_path output_path cwd with
      | None => None
      | Some (inl e) => Some (inl e)
      | Some (inr cwd1) =>
          match parts (topic +:+ "_logic.txt"),
                parts (topic +:+ "_flowchart.md") with
          | Some logic_name, Some mermaid_name =>
              let logic_file := output_path ++ logic_name in
              let mermaid_file := output_path ++ mermaid_name in
              match write_file logic_file logic_text cwd1 with
              | inl e => Some (inl e)
              | inr cwd2 =>
                  match write_file mermaid_file mermaid_chart cwd2 with
                  | inl e => Some (inl e)
                  | inr cwd3 => Some (inr ((logic_file, mermaid_file), cwd3))
                  end
              end
          | _, _ => None
          end
      end
  end.

Definition examples : list (string * (string * string)) :=
  [("emergency_room", DualOutputDecisionAgent.create_emergency_room_logic);
   ("software_deployment",
     DualOutputDecisionAgent.create_software_deployment_logic);
   ("business_investment",
     DualOutputDecisionAgent.create_business_investment_logic)].

(** The loop of [generate_all_examples] over [examples]. *)
Fixpoint generate (examples : list (string * (string * string)))
  (output_dir : string) (cwd : gmap string node)
  : option (error + list (list string) * gmap string node) :=
  match examples with
  | [] => Some (inr ([], cwd))
  | (name, (logic_text, mermaid_chart)) :: rest =>
      match save_dual_outputs name logic_text mermaid_chart output_dir cwd
      with
      | None => None
      | Some (inl e) => Some (inl e)
      | Some (inr ((logic_file, mermaid_file), cwd')) =>
          match generate rest output_dir cwd' with
          | None => None
          | Some (inl e) => Some (inl e)
          | Some (inr (generated_files, cwd'')) =>
              Some (inr (logic_file :: mermaid_file :: generated_files,
                         cwd''))
          end
      end
  end.

Definition generate_all_examples (output_dir : string)
  (cwd : gmap string node)
  : option (error + list (list string) * gmap string node) :=
  generate examples output_dir cwd.

(** The files of the output directory after the outputs of [exs] were
    written over [files], their names, and the paths returned for the
    output directory [name]. *)
Definition written (exs : list (string * (string * string)))
  (files : gmap string string) : gmap string string :=
  foldl (λ fs e, <[e.1 +:+ "_flowchart.md" := e.2.2]>
                   (<[e.1 +:+ "_logic.txt" := e.2.1]> fs)) files exs.

Definition written_names (exs : list (string * (string * string)))
  : list string :=
  e ← exs; [e.1 +:+ "_logic.txt"; e.1 +:+ "_flowchart.md"].

Definition written_paths (exs : list (string * (string * string)))
  (name : string) : list (list string) :=
  (λ f, [name; f]) <$> written_names exs.

(** The content of the file a path of [files_created] names, read in the
    run root [r]. *)
Definition file_at (r : gmap string node) (path : list string)
  : option string :=
  match path with
  | [root; d; f] =>
      if String.eqb root "run" then
        match r !! d with
        | Some (Dir files) => files !! f
        | _ => None
        end
      else None
  | _ => None
  end.

(** The four paths of a [files_created] record. *)
Definition paths_of (fc : files_created) : list (list string) :=
  [prompt_file fc; logic_file fc; mermaid_file fc; metadata_file fc].

(** A queue whose only prompt bears the name of an artifact. *)
Definition flowchart_world : world :=
  {| queued := {[ "flowchart.md" := File "Plan the software deployment" ]};
     run := ∅; clock := λ _, noon; ticks := 0 |}.
(** * Properties *)

Import DualOutputDecisionAgent PromptQueueSystem.

(** ** The primitives on sample values *)

Example strftime_ex :
  strftime {| year := 2024; month := 1; day := 2; hour := 9; minute := 0;
              second := 5; microsecond := 0 |} = "20240102_090005".
Proof. reflexivity. Qed.
Example isoformat_ex :
  isoformat {| year := 2024; month := 1; day := 2; hour := 9; minute := 0;
              second := 5; microsecond := 1200 |} = "2024-01-02T09:00:05.001200".
Proof. reflexivity. Qed.
Example iso_ex : is_iso8601 "2024-01-02T09:00:05.001200" = true.
Proof. reflexivity. Qed.
Example iso_ex2 : is_iso8601 "2024-13-02T09:00:05" = false.
Proof. reflexivity. Qed.

Example dumps_ex :
  loads (dumps (JObject [("a" , JString "x
y"); ("l", JArray [JString "p"; JArray []; JNumber "1.5e3"; JNull])]))
  = Some (JObject [("a" , JString "x
y"); ("l", JArray [JString "p"; JArray []; JNumber "1.5e3"; JNull])]).
Proof. vm_compute. reflexivity. Qed.

Example loads_wide_escape :
  loads (String quote ("\u4e2d\u6587.txt" +:+ String quote ""))
  = Some (JString "\u4e2d\u6587.txt")
  ∧ loads (String quote ("caf\u00e9 \ud83d\ude00"
                         +:+ String quote ""))
    = Some (JString ("caf" +:+ String "233" " \ud83d\ude00"))
  ∧ loads (String quote ("\u4e2" +:+ String quote "")) = None.
Proof. vm_compute. done. Qed.

(** ** Strings *)

Section string_facts.
  Implicit Types (s p a b : string) (c : ascii).

Lemma sapp_cons c a b : String c a +:+ b = String c (a +:+ b).
Proof. reflexivity. Qed.

Lemma sapp_empty_l s : "" +:+ s = s.
Proof. reflexivity. Qed.

Lemma sapp_empty_r s : s +:+ "" = s.
Proof. induction s as [|c s IH]; [done|]. by rewrite sapp_cons, IH. Qed.

Lemma sapp_assoc a b s : (a +:+ b) +:+ s = a +:+ b +:+ s.
Proof. induction a as [|c a IH]; [done|]. by rewrite !sapp_cons, IH. Qed.

Lemma length_sapp a b :
  String.length (a +:+ b) = String.length a + String.length b.
Proof. induction a as [|c a IH]; [done|]. rewrite sapp_cons. simpl. lia. Qed.

Lemma ascii_eqb_true c d : Ascii.eqb c d = true ↔ c = d.
Proof. apply Ascii.eqb_eq. Qed.

Lemma startswith_spec p s : startswith p s = true ↔ ∃ b, s = p +:+ b.
Proof.
  unfold startswith. revert s.
  induction p as [|c p IH]; intros [|d s]; simpl.
  - split; [by exists ""|done].
  - split; [by eexists|done].
  - split; [done|]. by intros [b Hb].
  - destruct (ascii_dec c d) as [->|Hne].
    + rewrite IH. split; intros [b Hb]; exists b.
      * by rewrite sapp_cons, <- Hb.
      * rewrite sapp_cons in Hb. by simplify_eq.
    + split; [done|]. intros [b Hb]. rewrite sapp_cons in Hb. by simplify_eq.
Qed.

(** [p in s] holds exactly when [p] occurs in [s]. *)
Lemma contains_spec p s : contains p s = true ↔ ∃ a b, s = a +:+ p +:+ b.
Proof.
  induction s as [|c s IH]; cbn [contains];
    rewrite orb_true_iff, startswith_spec.
  - split.
    + intros [[b Hb]|?]; [|done]. by exists "", b.
    + intros (a & b & Hab). left. destruct a; [by exists b|done].
  - rewrite IH. split.
    + intros [[b Hb]|(a & b & Hab)].
      * by exists "", b.
      * exists (String c a), b. by rewrite sapp_cons, Hab.
    + intros (a & b & Hab). destruct a as [|d a].
      * left. by exists b.
      * right. exists a, b. rewrite sapp_cons in Hab. by simplify_eq.
Qed.

End string_facts.

(** ** The JSON codec: what [dumps] writes, [loads] reads back *)

Section json_roundtrip.

  #[local] Arguments String.append !_ _ / : simpl nomatch.

Lemma scanstring_escape_char c rest :
  scanstring (escape_char c +:+ rest) = cons_char c <$> scanstring rest.
Proof. by destruct c as [[] [] [] [] [] [] [] []]. Qed.

Lemma scanstring_escape s rest :
  scanstring (escape s +:+ String quote rest) = Some (s, rest).
Proof.
  induction s as [|c s IH]; [done|].
  cbn [escape]. by rewrite sapp_assoc, scanstring_escape_char, IH.
Qed.

Lemma scanstring_encode_string s rest :
  scanstring (escape s +:+ String quote "" +:+ rest) = Some (s, rest).
Proof. apply scanstring_escape. Qed.

Lemma skip_ws_spaces n s : skip_ws (spaces n +:+ s) = skip_ws s.
Proof. induction n as [|n IH]; [done|]. cbn [spaces]. rewrite sapp_cons. done. Qed.

Lemma skip_ws_newline_indent n s : skip_ws (newline_indent n +:+ s) = skip_ws s.
Proof. unfold newline_indent. rewrite sapp_cons. cbn [skip_ws]. apply skip_ws_spaces. Qed.

Lemma encode_string_app a rest :
  encode_string a +:+ rest = String quote (escape a +:+ String quote rest).
Proof. unfold encode_string. by rewrite sapp_cons, sapp_assoc. Qed.

Lemma scan_once_string f a rest :
  scan_once (S f) (encode_string a +:+ rest) = Some (JString a, rest).
Proof.
  rewrite encode_string_app. cbn [scan_once].
  rewrite Ascii.eqb_refl, scanstring_escape. done.
Qed.

Lemma skip_ws_encode_string a rest :
  skip_ws (encode_string a +:+ rest) = encode_string a +:+ rest.
Proof. by rewrite encode_string_app. Qed.

Lemma object_members_step scan fuel acc k s v r :
  scan (skip_ws s) = Some (v, r) →
  object_members scan (S fuel) acc (encode_string k +:+ String ":" (String " " s))
  = match skip_ws r with
    | String d r4 =>
        if Ascii.eqb d "}" then Some (obj_set k v acc, r4)
        else if Ascii.eqb d "," then
          object_members scan fuel (obj_set k v acc) (skip_ws r4)
        else None
    | "" => None
    end.
Proof.
  intros Hs. rewrite encode_string_app. cbn [object_members].
  rewrite Ascii.eqb_refl, scanstring_escape. cbn. rewrite Hs. done.
Qed.

Lemma array_items_step scan fuel s v r :
  scan s = Some (v, r) →
  array_items scan (S fuel) s
  = match skip_ws r with
    | String c r' =>
        if Ascii.eqb c "]" then Some ([v], r')
        else if Ascii.eqb c "," then
          '(vs, r'') ← array_items scan fuel (skip_ws r'); Some (v :: vs, r'')
        else None
    | "" => None
    end.
Proof. intros Hs. cbn [array_items]. rewrite Hs. done. Qed.

Lemma skip_ws_comma s : skip_ws (String "," s) = String "," s.
Proof. done. Qed.

Lemma object_members_comma scan fuel acc k s v n k2 rest :
  scan (skip_ws s)
  = Some (v, String "," (newline_indent n +:+ encode_string k2 +:+ rest)) →
  object_members scan (S fuel) acc
    (encode_string k +:+ String ":" (String " " s))
  = object_members scan fuel (obj_set k v acc) (encode_string k2 +:+ rest).
Proof.
  intros Hs. rewrite (object_members_step _ _ _ _ _ _ _ Hs).
  rewrite skip_ws_comma. cbn [Ascii.eqb Bool.eqb].
  by rewrite skip_ws_newline_indent, skip_ws_encode_string.
Qed.

Lemma object_members_close scan fuel acc k s v n rest :
  scan (skip_ws s) = Some (v, newline_indent n +:+ String "}" rest) →
  object_members scan (S fuel) acc
    (encode_string k +:+ String ":" (String " " s))
  = Some (obj_set k v acc, rest).
Proof.
  intros Hs. rewrite (object_members_step _ _ _ _ _ _ _ Hs).
  by rewrite skip_ws_newline_indent.
Qed.

Lemma array_items_comma scan fuel s v n x rest :
  scan s = Some (v, String "," (newline_indent n +:+ encode_string x +:+ rest)) →
  array_items scan (S fuel) s
  = '(vs, r) ← array_items scan fuel (encode_string x +:+ rest);
    Some (v :: vs, r).
Proof.
  intros Hs. rewrite (array_items_step _ _ _ _ _ Hs).
  rewrite skip_ws_comma. cbn [Ascii.eqb Bool.eqb].
  by rewrite skip_ws_newline_indent, skip_ws_encode_string.
Qed.

Lemma array_items_close scan fuel s v n rest :
  scan s = Some (v, newline_indent n +:+ String "]" rest) →
  array_items scan (S fuel) s = Some ([v], rest).
Proof.
  intros Hs. rewrite (array_items_step _ _ _ _ _ Hs).
  by rewrite skip_ws_newline_indent.
Qed.

Lemma scan_once_object f n k rest :
  scan_once (S f) (String "{" (newline_indent n +:+ encode_string k +:+ rest))
  = '(o, r) ← object_members (scan_once f) f []
                (encode_string k +:+ rest);
    Some (JObject o, r).
Proof.
  cbn [scan_once].
  rewrite skip_ws_newline_indent, skip_ws_encode_string.
  by rewrite encode_string_app.
Qed.

Lemma scan_once_array f n x rest :
  scan_once (S f) (String "[" (newline_indent n +:+ encode_string x +:+ rest))
  = '(l, r) ← array_items (scan_once f) f (encode_string x +:+ rest);
    Some (JArray l, r).
Proof.
  cbn [scan_once].
  rewrite skip_ws_newline_indent, skip_ws_encode_string.
  by rewrite encode_string_app.
Qed.

Lemma dumps_layout a b c :
  dumps (metadata_json a b c)
  = String "{" (newline_indent 1 +:+ encode_string "original_prompt" +:+
      String ":" (String " " (encode_string a +:+
      String "," (newline_indent 1 +:+ encode_string "processed_at" +:+
      String ":" (String " " (encode_string b +:+
      String "," (newline_indent 1 +:+ encode_string "topic" +:+
      String ":" (String " " (encode_string c +:+
      String "," (newline_indent 1 +:+ encode_string "files_generated" +:+
      String ":" (String " " (String "[" (newline_indent 2 +:+
        encode_string "decision_logic.txt" +:+
        String "," (newline_indent 2 +:+ encode_string "flowchart.md" +:+
        newline_indent 1 +:+ String "]" (newline_indent 0 +:+
        String "}" ""))))))))))))))).
Proof.
  unfold dumps, metadata_json. cbn [encode map join].
  rewrite !sapp_assoc. reflexivity.
Qed.

Lemma scan_once_metadata f a b c :
  scan_once (S (S (S (S (S f))))) (dumps (metadata_json a b c)) = Some (metadata_json a b c, "").
Proof.
  rewrite dumps_layout, scan_once_object.
  erewrite object_members_comma;
    [|by rewrite skip_ws_encode_string, scan_once_string].
  erewrite object_members_comma;
    [|by rewrite skip_ws_encode_string, scan_once_string].
  erewrite object_members_comma;
    [|by rewrite skip_ws_encode_string, scan_once_string].
  erewrite object_members_close; [done|].
  change (skip_ws (String "[" ?s)) with (String "[" s).
  rewrite scan_once_array.
  erewrite array_items_comma; [|by rewrite scan_once_string].
  erewrite array_items_close; [done|].
  by rewrite scan_once_string.
Qed.

Lemma loads_dumps_metadata a b c :
  loads (dumps (metadata_json a b c)) = Some (metadata_json a b c).
Proof.
  unfold loads.
  assert (∃ n, String.length (dumps (metadata_json a b c)) = S (S (S (S n)))) as [n Hn].
  { rewrite dumps_layout. cbn [String.length]. unfold newline_indent.
    rewrite sapp_cons. cbn [String.length]. eauto. }
  rewrite Hn.
  assert (skip_ws (dumps (metadata_json a b c)) = dumps (metadata_json a b c)) as ->.
  { by rewrite dumps_layout. }
  by rewrite scan_once_metadata.
Qed.

End json_roundtrip.

(** ** The topic classifier *)

Lemma contains_mentions kw text :
  contains kw (lower text) = true ↔ mentions kw text.
Proof. apply contains_spec. Qed.

#[global] Instance mentions_dec kw text : Decision (mentions kw text).
Proof.
  destruct (contains kw (lower text)) eqn:E.
  - left. by apply contains_mentions.
  - right. intros H%contains_mentions. congruence.
Defined.

Lemma contains_false_mentions kw text :
  contains kw (lower text) = false ↔ ¬ mentions kw text.
Proof.
  rewrite <- contains_mentions. by destruct (contains kw (lower text)).
Qed.

Lemma Exists_mentions body kws :
  Exists (λ kw, mentions kw body) kws
  ↔ existsb (λ kw, contains kw (lower body)) kws = true.
Proof.
  induction kws as [|kw kws IH]; cbn [existsb].
  - by rewrite Exists_nil.
  - by rewrite Exists_cons, orb_true_iff, contains_mentions, IH.
Qed.

Ltac by_keywords :=
  repeat match goal with
  | H : mentions _ _ |- _ => apply contains_mentions in H
  | H : ¬ mentions _ _ |- _ => apply contains_false_mentions in H
  | H : ¬ (?A ∨ ?B) |- _ =>
      assert (¬ A) by tauto; assert (¬ B) by tauto; clear H
  | H : _ ∨ _ |- _ => destruct H
  | H : _ ∧ _ |- _ => destruct H
  end.

(** C3.  The classifier lowercases the body and is an ordered first match:
    "emergency" wins whatever else occurs; otherwise "software" or
    "deployment"; otherwise "business" or "investment"; otherwise the
    fallback [generic_decision]. *)
Theorem extract_topic_ordered_first_match (body : string) :
  extract_topic body
  = ordered_first_match (λ kw, mentions kw body) keyword_groups
  ∧ (mentions "emergency" body → extract_topic body = emergency_room)
  ∧ (¬ mentions "emergency" body →
     mentions "software" body ∨ mentions "deployment" body →
     extract_topic body = software_deployment)
  ∧ (¬ mentions "emergency" body →
     ¬ (mentions "software" body ∨ mentions "deployment" body) →
     mentions "business" body ∨ mentions "investment" body →
     extract_topic body = business_investment)
  ∧ (¬ mentions "emergency" body →
     ¬ (mentions "software" body ∨ mentions "deployment" body) →
     ¬ (mentions "business" body ∨ mentions "investment" body) →
     extract_topic body = generic_decision).
Proof.
  split; [|repeat split; intros; by_keywords; unfold extract_topic;
           repeat match goal with H : contains _ _ = _ |- _ =>
             rewrite H end; by rewrite ?orb_true_r].
  unfold ordered_first_match, keyword_groups, extract_topic.
  cbn [list_find].
  repeat (destruct (decide _) as [Hd|Hd]; cbn;
          [apply Exists_mentions in Hd
          |rewrite Exists_mentions in Hd; apply not_true_is_false in Hd];
          cbn [existsb snd] in Hd; rewrite ?orb_false_r in Hd;
          rewrite ?Hd; clear Hd; try done).
Qed.

(** ** The archiver *)

Section monad_facts.
  Context {A B : Type}.
  Implicit Types (m : M A) (k : A → M B) (w : world).

Lemma bind_return m k w a w' : m w = Return a w' → (m ≫= k) w = k a w'.
Proof. intros H. unfold mbind, M_bind. by rewrite H. Qed.

Lemma bind_raise m k w e : m w = Raise e → (m ≫= k) w = Raise e.
Proof. intros H. unfold mbind, M_bind. by rewrite H. Qed.

Lemma bind_inv m k w b w' :
  (m ≫= k) w = Return b w' →
  ∃ a w1, m w = Return a w1 ∧ k a w1 = Return b w'.
Proof.
  unfold mbind, M_bind. destruct (m w) as [e|a w1]; [done|]. eauto.
Qed.

End monad_facts.

Lemma mkdir_exist_ok_spec d w files :
  existing_files (run w) d = Some files →
  mkdir_exist_ok d w
  = Return files {| queued := queued w; run := <[d := Dir files]> (run w);
                    clock := clock w; ticks := ticks w |}.
Proof.
  unfold existing_files, mkdir_exist_ok, get_run. intros H.
  erewrite bind_return; [|done].
  destruct (run w !! d) as [[c|fs]|] eqn:E; simplify_eq.
  - unfold mret, M_ret. rewrite insert_id; [|done]. by destruct w.
  - done.
Qed.

Lemma write_text_spec d name text w files :
  run w !! d = Some (Dir files) →
  write_text d name text w
  = Return tt {| queued := queued w;
                 run := <[d := Dir (<[name := text]> files)]> (run w);
                 clock := clock w; ticks := ticks w |}.
Proof.
  unfold write_text, get_run. intros H.
  erewrite bind_return; [|done]. by rewrite H.
Qed.

Lemma move_spec name d w text files :
  queued w !! name = Some (File text) →
  run w !! d = Some (Dir files) →
  move name d w
  = Return tt {| queued := delete name (queued w);
                 run := <[d := Dir (<[name := text]> files)]> (run w);
                 clock := clock w; ticks := ticks w |}.
Proof.
  unfold move, get_queued. intros Hq Hd.
  erewrite bind_return; [|done]. rewrite Hq.
  erewrite bind_return; [|done]. by erewrite write_text_spec.
Qed.

Lemma move_to_run_spec name r w text files :
  let d := run_subdir_name (clock w (ticks w)) name in
  queued w !! name = Some (File text) →
  existing_files (run w) d = Some files →
  move_to_run name r w
  = Return (created d name)
      {| queued := delete name (queued w);
         run := <[d := Dir (archive files name text r)]> (run w);
         clock := clock w; ticks := S (ticks w) |}.
Proof.
  intros d Hq Hd. unfold move_to_run.
  erewrite bind_return; [|done].
  change (strftime _ +:+ "_" +:+ stem name) with d.
  erewrite bind_return; [|by apply mkdir_exist_ok_spec].
  erewrite bind_return;
    [|by eapply move_spec; [|apply lookup_insert_eq]].
  cbn [run queued clock ticks].
  do 3 (erewrite bind_return;
    [|by eapply write_text_spec; apply lookup_insert_eq];
    cbn [run queued clock ticks]).
  unfold mret, M_ret, created, archive. by rewrite !insert_insert_eq.
Qed.

(** ** The prompt parser *)

Lemma has_char_split_once c s :
  has_char c s = true → is_Some (split_once c s).
Proof.
  induction s as [|d s IH]; cbn [has_char split_once]; [done|].
  destruct (Ascii.eqb d c); [by eexists|].
  intros [[k v] ->]%IH. by eexists.
Qed.

(** The unpacking in the loop never fails on a metadata line. *)
Lemma metadata_line_entry line :
  is_metadata_line line = true → is_Some (metadata_entry line).
Proof.
  unfold metadata_entry. intros H. rewrite H.
  apply andb_true_iff in H as [H1 H2].
  apply startswith_spec in H1 as [b ->]. rewrite sapp_cons in *.
  cbn [tail has_char] in *.
  change (Ascii.eqb "#" ":") with false in H2.
  destruct (has_char_split_once _ _ H2) as [[k v] ->]. by eexists.
Qed.

Lemma rule_line_not_metadata line :
  startswith "---" line = true → is_metadata_line line = false.
Proof.
  intros [b ->]%startswith_spec. by rewrite !sapp_cons.
Qed.

Lemma parse_line_step md body raw :
  parse_line (Some (md, body)) raw
  = Some (match metadata_entry (strip raw) with
          | Some kv => dict_set kv.1 kv.2 md
          | None => md
          end,
          if is_body_line (strip raw) then body ++ [strip raw] else body).
Proof.
  unfold parse_line, is_body_line. cbn [mbind option_bind].
  destruct (is_metadata_line (strip raw)) eqn:Hm.
  - destruct (metadata_line_entry _ Hm) as [[k v] Hkv]. rewrite Hkv.
    unfold metadata_entry in Hkv. rewrite Hm in Hkv.
    destruct (split_once ":" (tail (strip raw))) as [[k' v']|]; [|done].
    cbn in Hkv. by simplify_eq.
  - unfold metadata_entry. rewrite Hm.
    by destruct (startswith "---" (strip raw)).
Qed.

Lemma parse_line_fold lines md body :
  foldl parse_line (Some (md, body)) lines
  = Some (foldl (λ md kv, dict_set kv.1 kv.2 md) md
            (omap metadata_entry (strip <$> lines)),
          body ++ body_of (strip <$> lines)).
Proof.
  revert md body. induction lines as [|raw lines IH]; intros md body.
  { cbn. by rewrite app_nil_r. }
  cbn [foldl fmap list_fmap omap list_omap]. unfold body_of.
  rewrite filter_cons, parse_line_step, IH.
  destruct (metadata_entry (strip raw)) as [kv|];
    destruct (is_body_line (strip raw)); cbn;
    by rewrite <- ?(assoc_L (++)).
Qed.

Lemma parse_prompt_spec text :
  parse_prompt text
  = Some (metadata_of (trimmed_lines text),
          strip (join newline (body_of (trimmed_lines text)))).
Proof.
  unfold parse_prompt, trimmed_lines, metadata_of.
  by rewrite parse_line_fold.
Qed.

(** *** Trimming and splitting *)

Section strip_facts.
  Implicit Types (s t h : string) (c : ascii) (l : list string).

Lemma isspace_nl : isspace nl = true.
Proof. done. Qed.

Lemma rstrip_cons c s :
  rstrip (String c s)
  = if decide (rstrip s = "") then (if isspace c then "" else String c "")
    else String c (rstrip s).
Proof. cbn [rstrip]. by destruct (rstrip s); case_decide. Qed.

Lemma rstrip_app a b :
  rstrip (a +:+ b)
  = if decide (rstrip b = "") then rstrip a else a +:+ rstrip b.
Proof.
  induction a as [|c a IH]; [by case_decide|].
  rewrite sapp_cons, !rstrip_cons, IH.
  destruct (decide (rstrip b = "")) as [Hb|Hb]; [done|].
  rewrite sapp_cons. case_decide as Hab; [|done].
  by destruct a, (rstrip b).
Qed.

Lemma rstrip_snoc_space s c :
  isspace c = true → rstrip (s +:+ String c "") = rstrip s.
Proof.
  intros Hc. rewrite rstrip_app, rstrip_cons. cbn [rstrip]. by rewrite Hc.
Qed.

Lemma strip_cons_space c s : isspace c = true → strip (String c s) = strip s.
Proof.
  intros Hc. unfold strip. rewrite rstrip_cons, Hc.
  case_decide as Hs; [by rewrite Hs|]. cbn [lstrip]. by rewrite Hc.
Qed.

Lemma strip_snoc_space s c :
  isspace c = true → strip (s +:+ String c "") = strip s.
Proof. intros Hc. unfold strip. by rewrite rstrip_snoc_space. Qed.

Lemma split_ne c s : split c s ≠ [].
Proof.
  destruct s as [|d s]; cbn [split]; [done|].
  destruct (Ascii.eqb d c); [done|]. by destruct (split c s).
Qed.

Lemma split_cons_sep c s : split c (String c s) = "" :: split c s.
Proof. cbn [split]. by rewrite Ascii.eqb_refl. Qed.

Lemma split_cons_other c d s h l :
  d ≠ c → split c s = h :: l → split c (String d s) = String d h :: l.
Proof.
  intros Hd Hs. cbn [split]. rewrite Hs.
  by destruct (Ascii.eqb_spec d c).
Qed.

(** Trimming the text on the right only drops blank lines at the end and
    trailing blanks of the last line kept. *)
Lemma split_rstrip s :
  ∃ k, rstrip <$> split nl s
       = (rstrip <$> split nl (rstrip s)) ++ replicate k "".
Proof.
  induction s as [|c s [k IH]]; [by exists 0|].
  destruct (split nl s) as [|h l] eqn:Hs; [by apply split_ne in Hs|].
  rewrite rstrip_cons. destruct (decide (c = nl)) as [->|Hc].
  - rewrite split_cons_sep, Hs, isspace_nl. case_decide as Hr.
    + exists (S k). rewrite Hr in IH. cbn in *. by rewrite IH.
    + exists k. rewrite split_cons_sep. cbn in *. by rewrite IH.
  - rewrite (split_cons_other _ _ _ _ _ Hc Hs). case_decide as Hr.
    + rewrite Hr in IH. cbn in IH. simplify_eq.
      exists k. cbn [fmap list_fmap]. rewrite rstrip_cons.
      rewrite decide_True by done. destruct (isspace c) eqn:Hsp.
      * cbn. by f_equal.
      * rewrite (split_cons_other nl c "" "" []); [|done..].
        cbn [fmap list_fmap]. rewrite rstrip_cons. cbn [rstrip].
        rewrite decide_True, Hsp by done. cbn. by f_equal.
    + destruct (split nl (rstrip s)) as [|h' l'] eqn:Hs';
        [by apply split_ne in Hs'|].
      rewrite (split_cons_other _ _ _ _ _ Hc Hs'). cbn in IH. simplify_eq.
      exists k. cbn [fmap list_fmap]. rewrite !rstrip_cons.
      rewrite H, H0. done.
Qed.

(** Trimming the text on the left only drops blank lines at the start and
    leading blanks of the first line kept. *)
Lemma split_lstrip s :
  ∃ k, strip <$> split nl s
       = replicate k "" ++ (strip <$> split nl (lstrip s)).
Proof.
  induction s as [|c s [k IH]]; [by exists 0|].
  cbn [lstrip]. destruct (isspace c) eqn:Hsp; [|by exists 0].
  destruct (split nl s) as [|h l] eqn:Hs; [by apply split_ne in Hs|].
  destruct (decide (c = nl)) as [->|Hc].
  - exists (S k). rewrite split_cons_sep, Hs. cbn in *. by rewrite IH.
  - exists k. rewrite (split_cons_other _ _ _ _ _ Hc Hs).
    cbn [fmap list_fmap] in *. by rewrite strip_cons_space.
Qed.

Lemma fmap_replicate_empty (f : string → string) k :
  f "" = "" → f <$> replicate k "" = replicate k "".
Proof. intros Hf. induction k; cbn; [done|]. by rewrite Hf; f_equal. Qed.

(** The trimmed lines of the whole text are the trimmed lines the loop sees,
    between blank lines. *)
Lemma split_strip s :
  ∃ k1 k2, strip <$> split nl s
           = replicate k1 "" ++ trimmed_lines s ++ replicate k2 "".
Proof.
  destruct (split_rstrip s) as [k2 H2].
  destruct (split_lstrip (rstrip s)) as [k1 H1].
  exists k1, k2. unfold trimmed_lines.
  assert (∀ l, strip <$> l = lstrip <$> (rstrip <$> l)) as F.
  { intros l. by rewrite <- list_fmap_compose. }
  rewrite (F (split nl s)), H2, fmap_app, <- F, H1.
  by rewrite fmap_replicate_empty, <- (assoc_L (++)).
Qed.

Lemma metadata_of_blank k1 k2 l :
  metadata_of (replicate k1 "" ++ l ++ replicate k2 "") = metadata_of l.
Proof.
  unfold metadata_of. rewrite !omap_app.
  assert (∀ k, omap metadata_entry (replicate k "") = []) as Hk.
  { intros k. induction k; [done|]. cbn. by rewrite IHk. }
  by rewrite !Hk, app_nil_r.
Qed.

Lemma body_of_blank k1 k2 l :
  body_of (replicate k1 "" ++ l ++ replicate k2 "")
  = replicate k1 "" ++ body_of l ++ replicate k2 "".
Proof.
  unfold body_of. rewrite !filter_app.
  assert (∀ k, filter (λ line, is_body_line line = true) (replicate k "")
               = replicate k "") as Hk.
  { intros k. induction k as [|k IH]; [done|]. cbn [replicate].
    rewrite filter_cons_True by done. by f_equal. }
  by rewrite !Hk.
Qed.

Lemma join_cons sep x y l :
  join sep (x :: y :: l) = x +:+ sep +:+ join sep (y :: l).
Proof. done. Qed.

Lemma join_snoc sep l x :
  l ≠ [] → join sep (l ++ [x]) = join sep l +:+ sep +:+ x.
Proof.
  induction l as [|y l IH]; [done|]. intros _.
  destruct l as [|z l]; [done|]. specialize (IH ltac:(done)).
  change (join sep ((y :: z :: l) ++ [x]))
    with (y +:+ sep +:+ join sep ((z :: l) ++ [x])).
  rewrite IH.
  change (join sep (y :: z :: l)) with (y +:+ sep +:+ join sep (z :: l)).
  by rewrite !sapp_assoc.
Qed.

Lemma strip_join_blank k1 k2 l :
  strip (join newline (replicate k1 "" ++ l ++ replicate k2 ""))
  = strip (join newline l).
Proof.
  induction k1 as [|k1 IH].
  - cbn [replicate app]. induction k2 as [|k2 IH].
    + by rewrite app_nil_r.
    + rewrite <- IH. change (replicate (S k2) "") with ("" :: replicate k2 "").
      rewrite replicate_cons_app, (assoc_L (++)).
      destruct (decide (l ++ replicate k2 "" = [])) as [->|Hne]; [done|].
      rewrite join_snoc, sapp_empty_r by done.
      exact (strip_snoc_space _ nl isspace_nl).
  - rewrite <- IH. cbn [replicate app].
    destruct (replicate k1 "" ++ l ++ replicate k2 "") as [|y l']; [done|].
    rewrite join_cons, sapp_empty_l.
    exact (strip_cons_space nl _ isspace_nl).
Qed.

(** The first [strip] of [read_prompt_content] is redundant: the parser
    gives the same result on the lines of the untrimmed text. *)
Lemma parse_prompt_untrimmed text :
  parse_prompt text
  = Some (metadata_of (strip <$> split nl text),
          strip (join newline (body_of (strip <$> split nl text)))).
Proof.
  rewrite parse_prompt_spec. destruct (split_strip text) as (k1 & k2 & ->).
  by rewrite metadata_of_blank, body_of_blank, strip_join_blank.
Qed.


Lemma split_line x : has_char nl x = false → split nl x = [x].
Proof.
  induction x as [|c x IH]; [done|]. cbn [has_char split].
  destruct (Ascii.eqb c nl); [done|]. intros ->%IH. done.
Qed.

Lemma split_app_newline x rest :
  has_char nl x = false →
  split nl (x +:+ newline +:+ rest) = x :: split nl rest.
Proof.
  induction x as [|c x IH]; [done|]. cbn [has_char]. rewrite sapp_cons.
  cbn [split]. destruct (Ascii.eqb c nl); [done|]. intros ->%IH. done.
Qed.

Lemma split_join l :
  l ≠ [] → Forall (λ x, has_char nl x = false) l →
  split nl (join newline l) = l.
Proof.
  induction l as [|x l IH]; [done|]. intros _ [Hx Hl]%Forall_cons.
  destruct l as [|y l]; [by apply split_line|].
  rewrite join_cons, split_app_newline, IH by done. done.
Qed.

Lemma lstrip_length s : String.length (lstrip s) ≤ String.length s.
Proof.
  induction s as [|c s IH]; cbn [lstrip]; [done|].
  destruct (isspace c); cbn [String.length]; lia.
Qed.

Lemma rstrip_length s : String.length (rstrip s) ≤ String.length s.
Proof.
  induction s as [|c s IH]; [done|]. rewrite rstrip_cons.
  case_decide; [destruct (isspace c)|]; cbn [String.length]; lia.
Qed.

Lemma lstrip_same_length s :
  String.length (lstrip s) = String.length s → lstrip s = s.
Proof.
  destruct s as [|c s]; cbn [lstrip]; [done|].
  destruct (isspace c); [|done].
  pose proof (lstrip_length s). cbn [String.length]. lia.
Qed.

Lemma rstrip_same_length s :
  String.length (rstrip s) = String.length s → rstrip s = s.
Proof.
  induction s as [|c s IH]; [done|]. rewrite rstrip_cons.
  pose proof (rstrip_length s). case_decide as Hs.
  - rewrite Hs in *. destruct (isspace c), s; cbn [String.length]; by try lia.
  - cbn [String.length]. intros ?. f_equal. apply IH. lia.
Qed.

(** A text that [strip] leaves unchanged has no blank at either end. *)
Lemma strip_fixed s : strip s = s → lstrip s = s ∧ rstrip s = s.
Proof.
  intros Hs. pose proof (lstrip_length (rstrip s)) as H1.
  pose proof (rstrip_length s) as H2.
  assert (rstrip s = s) as Hr.
  { apply rstrip_same_length. unfold strip in Hs. rewrite Hs in H1. lia. }
  split; [|done]. unfold strip in Hs. by rewrite Hr in Hs.
Qed.

Lemma has_char_app c a b :
  has_char c (a +:+ b) = has_char c a || has_char c b.
Proof.
  induction a as [|d a IH]; [done|]. rewrite sapp_cons. cbn [has_char].
  by destruct (Ascii.eqb d c).
Qed.

Lemma split_once_app c a b :
  has_char c a = false → split_once c (a +:+ String c b) = Some (a, b).
Proof.
  induction a as [|d a IH]; cbn [has_char].
  - intros _. rewrite sapp_empty_l. cbn [split_once].
    by rewrite Ascii.eqb_refl.
  - rewrite sapp_cons. cbn [split_once]. destruct (Ascii.eqb d c); [done|].
    intros ->%IH. done.
Qed.

End strip_facts.

Lemma body_line_no_entry line :
  is_body_line line = true → metadata_entry line = None.
Proof.
  unfold is_body_line, metadata_entry.
  by destruct (is_metadata_line line).
Qed.

Lemma body_lines_parse lines :
  Forall (λ l, is_body_line (strip l) = true) lines →
  omap metadata_entry (strip <$> lines) = []
  ∧ body_of (strip <$> lines) = strip <$> lines.
Proof.
  induction 1 as [|l lines Hl _ [IH1 IH2]]; [done|].
  unfold body_of in *. cbn [fmap list_fmap omap list_omap].
  rewrite filter_cons_True, body_line_no_entry by done.
  by rewrite IH1, IH2.
Qed.

Lemma rstrip_idemp s : rstrip (rstrip s) = rstrip s.
Proof.
  induction s as [|c s IH]; [done|]. rewrite rstrip_cons.
  case_decide as Hs.
  - destruct (isspace c) eqn:Hc; [done|]. cbn [rstrip]. by rewrite Hc.
  - by rewrite rstrip_cons, IH, decide_False.
Qed.

Lemma strip_rstrip s : strip (rstrip s) = strip s.
Proof. unfold strip. by rewrite rstrip_idemp. Qed.

(** A line [#key: value] with a trimmed key is a metadata line that carries
    the key and the trimmed value. *)
Lemma metadata_entry_value key value :
  has_char ":" key = false → strip key = key →
  let line := strip ("#" +:+ key +:+ ": " +:+ value) in
  metadata_entry line = Some (key, strip value) ∧ is_body_line line = false.
Proof.
  intros Hk Hkey.
  set (R := rstrip (String " " value)).
  assert (strip R = strip value) as HR.
  { unfold R. rewrite strip_rstrip. by apply strip_cons_space. }
  assert (strip ("#" +:+ key +:+ ": " +:+ value)
          = String "#" (key +:+ String ":" R)) as ->.
  { unfold strip. rewrite sapp_cons, sapp_empty_l, rstrip_cons.
    assert (rstrip (key +:+ ": " +:+ value) = key +:+ String ":" R) as ->.
    { assert (rstrip (": " +:+ value) = String ":" R) as HR2.
      { change (": " +:+ value) with (String ":" (String " " value)).
        rewrite rstrip_cons. fold R. by case_decide as H; [rewrite H|]. }
      by rewrite rstrip_app, HR2, decide_False. }
    rewrite decide_False by by destruct key. done. }
  assert (is_metadata_line (String "#" (key +:+ String ":" R)) = true) as Hm.
  { unfold is_metadata_line. cbn [has_char].
    rewrite has_char_app. cbn [has_char]. rewrite Ascii.eqb_refl.
    rewrite orb_true_r.
    by rewrite (proj2 (startswith_spec "#" _)) by by eexists. }
  cbn zeta. unfold is_body_line, metadata_entry. rewrite Hm.
  cbn [tail]. rewrite split_once_app by done.
  cbn [mbind option_bind negb andb]. by rewrite Hkey, HR.
Qed.

(** C5 (amended).  A file made of the lines [#Topic: X] and
    [#Description: Y] followed by body lines parses to the mapping
    [{Topic: X trimmed, Description: Y trimmed}] and to the body obtained
    by trimming each body line, joining the trimmed lines by newline and
    trimming the whole. *)
Theorem parse_topic_description (X Y : string) (lines : list string) :
  has_char nl X = false → has_char nl Y = false →
  Forall (λ l, has_char nl l = false ∧ is_body_line (strip l) = true) lines →
  parse_prompt
    (join newline (("#Topic: " +:+ X) :: ("#Description: " +:+ Y) :: lines))
  = Some ([("Topic", strip X); ("Description", strip Y)],
          strip (join newline (strip <$> lines))).
Proof.
  intros HnX HnY Hlines.
  destruct (metadata_entry_value "Topic" X) as [HT1 HT2]; [done..|].
  destruct (metadata_entry_value "Description" Y) as [HD1 HD2]; [done..|].
  change ("#" +:+ "Topic" +:+ ": " +:+ X) with ("#Topic: " +:+ X) in *.
  change ("#" +:+ "Description" +:+ ": " +:+ Y)
    with ("#Description: " +:+ Y) in *.
  destruct (body_lines_parse lines) as [Hm Hb].
  { eapply Forall_impl; [done|]. by intros l [_ ?]. }
  rewrite parse_prompt_untrimmed, split_join; [|done|].
  - unfold metadata_of, body_of in *. cbn [fmap list_fmap omap list_omap].
    rewrite !filter_cons_False by by rewrite ?HT2, ?HD2.
    rewrite HT1, HD1, Hm, Hb. cbn [foldl dict_set fst snd String.eqb].
    done.
  - repeat apply Forall_cons_2.
    + by rewrite has_char_app, HnX.
    + by rewrite has_char_app, HnY.
    + eapply Forall_impl; [done|]. by intros l [? _].
Qed.

Lemma parse_topic_description_witness :
  parse_prompt
    (join newline ["#Topic:   Triage  "; "#Description: When to go";
                   "first line"; "  indented line  "])
  = Some ([("Topic", "Triage"); ("Description", "When to go")],
          strip (join newline (strip <$> ["first line"; "  indented line  "]))).
Proof.
  apply (parse_topic_description "  Triage  " "When to go"
           ["first line"; "  indented line  "]); try reflexivity.
  repeat constructor.
Defined.

(** C5 as stated fails: the body is not the untrimmed lines joined and
    trimmed as a whole, since every line is trimmed on its own; and a value
    is stored without the blanks around it. *)
Lemma parse_topic_description_counterexample :
  (∃ X Y lines,
     has_char nl X = false ∧ has_char nl Y = false
     ∧ Forall (λ l, has_char nl l = false ∧ is_body_line (strip l) = true)
         lines
     ∧ parse_prompt
         (join newline
            (("#Topic: " +:+ X) :: ("#Description: " +:+ Y) :: lines))
       ≠ Some ([("Topic", X); ("Description", Y)],
               strip (join newline lines)))
  ∧ parse_prompt
      (join newline ["#Topic: " +:+ "  X "; "#Description: " +:+ "Y"; "body"])
    ≠ Some ([("Topic", "  X "); ("Description", "Y")], "body").
Proof.
  split.
  - exists "X", "Y", ["first"; "  second"].
    repeat split; try reflexivity; [repeat constructor|].
    vm_compute. discriminate.
  - vm_compute. discriminate.
Qed.

(** ** One prompt through the pipeline *)

Lemma read_prompt_content_spec name text w :
  queued w !! name = Some (File text) →
  read_prompt_content name w
  = Return (parsed name text (clock w (ticks w)))
      {| queued := queued w; run := run w; clock := clock w;
         ticks := S (ticks w) |}.
Proof.
  intros Hq. unfold read_prompt_content.
  erewrite bind_return; [|by unfold read_text; rewrite Hq].
  rewrite parse_prompt_spec. by erewrite bind_return.
Qed.

Lemma process_prompt_spec name text t w :
  process_prompt (parsed name text t) w
  = Return (processed name text t (clock w (ticks w)))
      {| queued := queued w; run := run w; clock := clock w;
         ticks := S (ticks w) |}.
Proof.
  unfold process_prompt, processed. cbn [content parsed].
  destruct (select_logic (body_text text)) as [logic mermaid].
  by erewrite bind_return.
Qed.

Lemma process_one_spec name text files w :
  queued w !! name = Some (File text) →
  existing_files (run w)
    (run_subdir_name (clock w (S (S (ticks w)))) name) = Some files →
  process_one name w
  = Return (record_of name text w) (after_one name text files w).
Proof.
  intros Hq Hd. unfold process_one.
  erewrite bind_return; [|by apply read_prompt_content_spec].
  erewrite bind_return; [|by apply process_prompt_spec].
  erewrite bind_return; [|by eapply move_to_run_spec]. done.
Qed.

Lemma move_to_run_inv name r w fc w' :
  move_to_run name r w = Return fc w' →
  ∃ text files,
    queued w !! name = Some (File text)
    ∧ existing_files (run w) (run_subdir_name (clock w (ticks w)) name)
      = Some files.
Proof.
  unfold move_to_run. intros H.
  apply bind_inv in H as (t & w1 & Hnow & H). unfold now in Hnow.
  simplify_eq.
  apply bind_inv in H as (files & w2 & Hmk & H).
  apply bind_inv in H as ([] & w3 & Hmv & _).
  change (strftime _ +:+ "_" +:+ stem name)
    with (run_subdir_name (clock w (ticks w)) name) in *.
  set (d := run_subdir_name (clock w (ticks w)) name) in *.
  destruct (existing_files (run w) d) as [fs|] eqn:Hd.
  - rewrite (mkdir_exist_ok_spec d _ fs) in Hmk by done. simplify_eq.
    unfold move in Hmv. apply bind_inv in Hmv as (q & w4 & Hq & Hmv).
    unfold get_queued in Hq. simplify_eq. cbn [queued] in Hmv.
    destruct (queued w !! name) as [[text|?]|]; [eauto|done..].
  - exfalso. unfold mkdir_exist_ok in Hmk.
    apply bind_inv in Hmk as (rr & w4 & Hr & Hmk).
    unfold get_run in Hr. simplify_eq. cbn [run] in Hmk.
    unfold existing_files in Hd. by destruct (run w !! d) as [[]|].
Qed.

(** [process_one] succeeds only in the situation of [process_one_spec]. *)
Lemma process_one_inv name w rec w' :
  process_one name w = Return rec w' →
  ∃ text files,
    queued w !! name = Some (File text)
    ∧ existing_files (run w)
        (run_subdir_name (clock w (S (S (ticks w)))) name) = Some files
    ∧ rec = record_of name text w ∧ w' = after_one name text files w.
Proof.
  intros H. destruct (queued w !! name) as [[text|fs]|] eqn:Hq.
  - pose proof H as H'. unfold process_one in H'.
    erewrite bind_return in H'; [|by apply read_prompt_content_spec].
    erewrite bind_return in H'; [|by apply process_prompt_spec].
    apply bind_inv in H' as (fc & w2 & Hm & _).
    apply move_to_run_inv in Hm as (text' & files & _ & Hd).
    cbn [run clock ticks] in Hd.
    rewrite (process_one_spec _ _ _ _ Hq Hd) in H. simplify_eq. eauto 6.
  - exfalso. unfold process_one, read_prompt_content in H.
    erewrite bind_raise in H; [done|].
    erewrite bind_raise; [done|]. unfold read_text. by rewrite Hq.
  - exfalso. unfold process_one, read_prompt_content in H.
    erewrite bind_raise in H; [done|].
    erewrite bind_raise; [done|]. unfold read_text. by rewrite Hq.
Qed.

(** ** A processing pass *)

Lemma original_prompt_of_dir files text m :
  files !! "execution_metadata.json" = Some text → loads text = Some m →
  original_prompt_of (Dir files)
  = match field "original_prompt" m with
    | Some (JString s) => Some s
    | _ => None
    end.
Proof.
  intros H1 H2. unfold original_prompt_of. rewrite H1.
  cbn [mbind option_bind]. by rewrite H2.
Qed.

Lemma archive_original_prompt files name text r :
  original_prompt_of (Dir (archive files name text r)) = Some name.
Proof.
  erewrite original_prompt_of_dir;
    [|apply lookup_insert_eq|apply loads_dumps_metadata].
  reflexivity.
Qed.

Lemma references_fun r d f g : references r d f → references r d g → f = g.
Proof. intros (n & ? & ?) (n' & ? & ?). by simplify_eq. Qed.

Lemma for_each_cons {A B} (body : A → M B) x l w bs w' :
  for_each body (x :: l) w = Return bs w' →
  ∃ b w1 bs', body x w = Return b w1
              ∧ for_each body l w1 = Return bs' w' ∧ bs = b :: bs'.
Proof.
  cbn [for_each]. intros H.
  apply bind_inv in H as (b & w1 & Hb & H).
  apply bind_inv in H as (bs' & w2 & Hbs & H).
  unfold mret, M_ret in H. simplify_eq. eauto 6.
Qed.

(** Every prompt of a completed pass has left the queue, and nothing else
    has. *)
Lemma pass_queue names w recs w' :
  for_each process_one names w = Return recs w' →
  clock w' = clock w
  ∧ ticks w' = 3 * length names + ticks w
  ∧ ∀ n, queued w' !! n
         = if decide (n ∈ names) then None else queued w !! n.
Proof.
  revert w recs. induction names as [|name names IH]; intros w recs H.
  { cbn in H. unfold mret, M_ret in H. simplify_eq.
    split_and!; [done..|]. intros n. by rewrite decide_False by set_solver. }
  apply for_each_cons in H as (b & w1 & bs & H1 & H & ->).
  apply process_one_inv in H1 as (text & files & Hq & Hd & -> & ->).
  apply IH in H as (Hc & Ht & Hqs). cbn [clock ticks queued after_one] in *.
  split_and!; [done|cbn [length]; lia|]. intros n. rewrite Hqs.
  destruct (decide (n = name)) as [->|Hn].
  - rewrite (decide_True (P := name ∈ name :: names)) by set_solver.
    case_decide; [done|]. by rewrite lookup_delete_eq.
  - rewrite lookup_delete_ne by done.
    by repeat case_decide; set_solver.
Qed.

(** A pass that completes has processed pairwise distinct names. *)
Lemma pass_NoDup names w recs w' :
  for_each process_one names w = Return recs w' → NoDup names.
Proof.
  revert w recs. induction names as [|name names IH]; intros w recs H.
  { constructor. }
  apply for_each_cons in H as (b & w1 & bs & H1 & H & ->).
  apply process_one_inv in H1 as (text & files & Hq & Hd & -> & ->).
  constructor; [|by eapply IH]. intros Hin.
  destruct names as [|n names]; [set_solver|].
  assert (∀ l w recs, for_each process_one l w = Return recs w' →
          ∀ n, n ∈ l → is_Some (queued w !! n)) as Hall.
  { clear. induction l as [|x l IH]; intros w recs H n Hn; [set_solver|].
    apply for_each_cons in H as (b & w1 & bs & H1 & H & ->).
    apply process_one_inv in H1 as (text & files & Hq & Hd & -> & ->).
    apply elem_of_cons in Hn as [->|Hn]; [by eexists|].
    destruct (IH _ _ H n Hn) as [v Hv]. cbn [queued after_one] in Hv.
    apply lookup_delete_Some in Hv as [_ Hv]. by eexists. }
  destruct (Hall _ _ _ H name Hin) as [v Hv].
  cbn [queued after_one] in Hv. by rewrite lookup_delete_eq in Hv.
Qed.

Lemma elem_of_referencing r f d : d ∈ referencing r f ↔ references r d f.
Proof.
  unfold referencing, references. rewrite list_elem_of_fmap. split.
  - intros ([d' n] & -> & [Hn Hin]%list_elem_of_filter).
    apply elem_of_map_to_list in Hin. eauto.
  - intros (n & Hd & Hn). exists (d, n). split; [done|].
    apply list_elem_of_filter. split; [done|]. by apply elem_of_map_to_list.
Qed.

Lemma elem_of_get_queued_prompts w f :
  f ∈ get_queued_prompts w ↔ is_Some (queued w !! f) ∧ recognized f.
Proof.
  unfold get_queued_prompts, recognized, glob.
  rewrite merge_sort_Permutation, elem_of_app, !list_elem_of_filter.
  rewrite list_elem_of_fmap.
  assert ((∃ y : string * node, f = y.1 ∧ y ∈ map_to_list (queued w))
          ↔ is_Some (queued w !! f)) as ->; [|tauto].
  split.
  - intros ([f' n] & -> & Hin%elem_of_map_to_list). by eexists.
  - intros [n Hn]. exists (f, n). by rewrite elem_of_map_to_list.
Qed.

(** What a completed pass leaves in the run root, when the directory
    names it assigns are pairwise distinct. *)
Lemma pass_run names w recs w' :
  for_each process_one names w = Return recs w' →
  let dirs := pass_dirs (clock w) (ticks w) names in
  NoDup dirs →
  (∀ d, d ∉ dirs → run w' !! d = run w !! d)
  ∧ (∀ f, f ∈ names → ∃ d, d ∈ dirs ∧ references (run w') d f)
  ∧ (∀ d, d ∈ dirs → ∃ f, f ∈ names ∧ references (run w') d f)
  ∧ (∀ d d' f, d ∈ dirs → d' ∈ dirs →
       references (run w') d f → references (run w') d' f → d = d').
Proof.
  intros H. pose proof (pass_NoDup _ _ _ _ H) as Hnames.
  revert w recs H Hnames.
  induction names as [|name names IH]; intros w recs H Hnames dirs Hnd.
  { cbn in H. unfold mret, M_ret in H. simplify_eq. subst dirs. cbn.
    split_and!; [done|set_solver..]. }
  apply for_each_cons in H as (b & w1 & bs & H1 & H & ->).
  apply process_one_inv in H1 as (text & files & Hq & Hd & -> & ->).
  apply NoDup_cons in Hnames as [Hname Hnames].
  cbn [pass_dirs] in dirs.
  set (d0 := run_subdir_name (clock w (S (S (ticks w)))) name) in *.
  set (dirs' := pass_dirs (clock w) (S (S (S (ticks w)))) names) in *.
  subst dirs. apply NoDup_cons in Hnd as [Hd0 Hnd].
  set (w1 := after_one name text files w) in *.
  destruct (IH w1 bs H Hnames Hnd) as (A & B & C & U).
  assert (references (run w') d0 name) as Href.
  { eexists. split; [|apply (archive_original_prompt files name text)].
    rewrite A by done. cbn [run w1 after_one]. fold d0.
    apply lookup_insert_eq. }
  split_and!.
  - intros d Hin. rewrite A by set_solver. cbn [run w1 after_one]. fold d0.
    rewrite lookup_insert_ne by set_solver. done.
  - intros f [->|Hf]%elem_of_cons; [set_solver|].
    destruct (B f Hf) as (d & ? & ?). set_solver.
  - intros d [->|Hin]%elem_of_cons; [set_solver|].
    destruct (C d Hin) as (f & ? & ?). set_solver.
  - intros d d' f [->|Hin]%elem_of_cons [->|Hin']%elem_of_cons Hr Hr';
      [done| | |by eapply U].
    + destruct (C d' Hin') as (f' & Hf' & Hr'').
      rewrite <- (references_fun _ _ _ _ Href Hr) in *.
      rewrite (references_fun _ _ _ _ Hr' Hr'') in *. done.
    + destruct (C d Hin) as (f' & Hf' & Hr'').
      rewrite <- (references_fun _ _ _ _ Href Hr') in *.
      rewrite (references_fun _ _ _ _ Hr Hr'') in *. done.
Qed.

(** C1 (amended).  After a pass that completes, every file of the queue
    with a recognized extension is gone from the queue; and when the
    directory names the pass assigns are pairwise distinct, exactly one
    directory of the pass references the file, which is then the only one
    in the whole run root unless an older archive referenced the same
    name. *)
Theorem pass_archives_each_prompt (w w' : world) recs (f text : string) :
  process_all_prompts w = Return recs w' →
  queued w !! f = Some (File text) → recognized f →
  queued w' !! f = None
  ∧ (let dirs := pass_dirs (clock w) (ticks w) (get_queued_prompts w) in
     NoDup dirs →
     (∃ d, d ∈ dirs ∧ references (run w') d f
           ∧ ∀ d', d' ∈ dirs → references (run w') d' f → d' = d)
     ∧ ((∀ d, ¬ references (run w) d f) →
        ∃ d, references (run w') d f
             ∧ ∀ d', references (run w') d' f → d' = d)).
Proof.
  unfold process_all_prompts. intros H Hq Hrec.
  assert (f ∈ get_queued_prompts w) as Hf.
  { apply elem_of_get_queued_prompts. split; [by eexists|done]. }
  split.
  - destruct (pass_queue _ _ _ _ H) as (_ & _ & Hqs).
    by rewrite Hqs, decide_True.
  - intros Hnd.
    set (dirs := pass_dirs (clock w) (ticks w) (get_queued_prompts w)) in *.
    destruct (pass_run _ _ _ _ H Hnd) as (A & B & C & U).
    destruct (B f Hf) as (d & Hd & Hr).
    split; [exists d; split_and!; [done..|]; intros d' ??; by eapply U|].
    intros Hold. exists d. split; [done|]. intros d' Hr'.
    destruct (decide (d' ∈ dirs)) as [Hin|Hout]; [by eapply U|].
    destruct Hr' as (n & Hn & Hop). rewrite (A _ Hout) in Hn.
    destruct (Hold d'). by exists n.
Qed.

Lemma pass_archives_each_prompt_witness :
  ∃ recs w',
    process_all_prompts
      {| queued := {[ "a.md" := File "first"; "b.txt" := File "second" ]};
         run := ∅; clock := λ _, noon; ticks := 0 |} = Return recs w'
    ∧ queued w' !! "a.md" = None
    ∧ ∃ d, references (run w') d "a.md"
           ∧ ∀ d', references (run w') d' "a.md" → d' = d.
Proof.
  set (w := {| queued := {[ "a.md" := File "first";
                            "b.txt" := File "second" ]};
               run := ∅; clock := λ _, noon; ticks := 0 |}).
  destruct (process_all_prompts w) as [e|recs w'] eqn:H;
    [by vm_compute in H|].
  exists recs, w'. split; [done|].
  destruct (pass_archives_each_prompt w w' recs "a.md" "first" H)
    as [Hgone Hone]; [reflexivity|by right|].
  split; [done|]. apply Hone.
  - apply (bool_decide_unpack _). by vm_compute.
  - intros d (n & Hn & _).
    change ((∅ : gmap string node) !! d = Some n) in Hn.
    by rewrite lookup_empty in Hn.
Defined.

(** C1 as stated fails: two prompts with the same base name processed
    within one second share one archive directory, and the metadata
    document written for the first is replaced by that of the second. *)
Lemma pass_archives_each_prompt_counterexample :
  ∃ recs w',
    process_all_prompts two_prompts = Return recs w'
    ∧ queued two_prompts !! "a.md" = Some (File "first prompt")
    ∧ recognized "a.md"
    ∧ referencing (run w') "a.md" = []
    ∧ ¬ ∃ d, references (run w') d "a.md".
Proof.
  destruct (process_all_prompts two_prompts) as [e|recs w'] eqn:H;
    [by vm_compute in H|].
  exists recs, w'. split_and!; [done|reflexivity|by right| |].
  - vm_compute in H. injection H as _ <-. vm_compute. reflexivity.
  - intros [d Hd%elem_of_referencing].
    vm_compute in H. injection H as _ <-. vm_compute in Hd. set_solver.
Qed.

(** C6 (amended).  Every trimmed line that starts with the rule marker
    [---], with or without text after it, is skipped and contributes to
    neither metadata nor body; every other line that is not a metadata line
    is appended to the body in trimmed form, in the original order. *)
Theorem parse_prompt_body_lines (text : string) :
  parse_prompt text
  = Some (metadata_of (trimmed_lines text),
          strip (join newline (body_of (trimmed_lines text))))
  ∧ body_of (trimmed_lines text)
    = filter (λ line, is_metadata_line line = false
                      ∧ startswith "---" line = false) (trimmed_lines text)
  ∧ ∀ line, startswith "---" line = true →
      metadata_entry line = None ∧ line ∉ body_of (trimmed_lines text).
Proof.
  split; [apply parse_prompt_spec|]. split.
  - unfold body_of. apply list_filter_iff. intros line.
    unfold is_body_line.
    by destruct (is_metadata_line line), (startswith "---" line);
      cbn; intuition.
  - intros line Hr. split.
    + unfold metadata_entry. by rewrite rule_line_not_metadata.
    + unfold body_of. rewrite list_elem_of_filter. unfold is_body_line.
      rewrite Hr, andb_false_r. by intros [? _].
Qed.

(** C6 as stated fails: a line that starts with the rule marker and goes
    on is neither a metadata line nor a bare rule, yet it is dropped. *)
Lemma parse_prompt_body_lines_counterexample :
  is_metadata_line "--- draft below" = false
  ∧ "--- draft below" ≠ "---"
  ∧ "--- draft below" ∈ trimmed_lines draft_text
  ∧ parse_prompt draft_text = Some ([], join newline ["first"; "last"])
  ∧ parse_prompt draft_text
    ≠ Some (metadata_of (trimmed_lines draft_text),
            strip (join newline
                     (body_as_specified (trimmed_lines draft_text)))).
Proof.
  split_and!; [done|done| |done|].
  - vm_compute. set_solver.
  - vm_compute. discriminate.
Qed.

(** ** Timestamps *)

Section datetime_facts.
  Local Open Scope N_scope.

Lemma digit_val_digit n : digit_val (digit n) = Some (n mod 10).
Proof.
  unfold digit_val, digit.
  assert (n mod 10 < 10) by (apply N.mod_lt; lia).
  generalize dependent (n mod 10). intros r Hr.
  rewrite N_ascii_embedding by lia.
  rewrite decide_True by lia. f_equal. lia.
Qed.

Lemma number_digits w k n acc rest :
  number (w + k) acc (digits w n +:+ rest)
  = number k (acc * 10 ^ N.of_nat w + n mod 10 ^ N.of_nat w) rest.
Proof.
  revert k n rest. induction w as [|w IH]; intros k n rest.
  { cbn [digits Nat.add]. rewrite sapp_empty_l. f_equal.
    change (10 ^ N.of_nat 0) with 1. rewrite N.mod_1_r. lia. }
  cbn [digits]. rewrite sapp_assoc, sapp_cons, sapp_empty_l.
  replace (S w + k)%nat with (w + S k)%nat by lia.
  rewrite IH. cbn [number]. rewrite digit_val_digit. f_equal.
  rewrite Nat2N.inj_succ, N.pow_succ_r'.
  rewrite (N.Div0.mod_mul_r n 10 (10 ^ N.of_nat w)).
  generalize (n mod 10) ((n / 10) mod 10 ^ N.of_nat w) (10 ^ N.of_nat w).
  intros; lia.
Qed.

Lemma number_digits_small w n rest :
  n < 10 ^ N.of_nat w →
  number w 0 (digits w n +:+ rest) = Some (n, rest).
Proof.
  intros Hn. replace w with (w + 0)%nat at 1 by lia.
  rewrite number_digits. cbn [number]. by rewrite N.mod_small.
Qed.

Lemma expect_cons c rest : expect c (String c "" +:+ rest) = Some rest.
Proof. rewrite sapp_cons. cbn [expect]. by rewrite Ascii.eqb_refl. Qed.

(** [isoformat] prints a valid [datetime] in ISO-8601 form. *)
Lemma isoformat_iso8601 t : valid t → is_iso8601 (isoformat t) = true.
Proof.
  intros (Hy & Hmo & Hd & Hh & Hmi & Hs & Hus).
  unfold is_iso8601, isoformat.
  rewrite number_digits_small by (cbn; lia). cbn [mbind option_bind].
  rewrite (expect_cons "-"). cbn [mbind option_bind].
  rewrite number_digits_small by (cbn; lia). cbn [mbind option_bind].
  rewrite (expect_cons "-"). cbn [mbind option_bind].
  rewrite number_digits_small by (cbn; lia). cbn [mbind option_bind].
  rewrite (expect_cons "T"). cbn [mbind option_bind].
  rewrite number_digits_small by (cbn; lia). cbn [mbind option_bind].
  rewrite (expect_cons ":"). cbn [mbind option_bind].
  rewrite number_digits_small by (cbn; lia). cbn [mbind option_bind].
  rewrite (expect_cons ":"). cbn [mbind option_bind].
  rewrite number_digits_small by (cbn; lia). cbn [mbind option_bind].
  rewrite !bool_decide_eq_true_2 by lia.
  case_decide as Hz.
  - done.
  - rewrite sapp_cons, sapp_empty_l. cbn [Ascii.eqb Bool.eqb].
    rewrite <- (sapp_empty_r (digits 6 _)).
    rewrite number_digits_small by (cbn; lia). done.
Qed.

End datetime_facts.

(** ** The content of an archive directory *)

Lemma archive_metadata files name text r :
  archive files name text r !! "execution_metadata.json"
  = Some (dumps (metadata_doc name r)).
Proof. apply lookup_insert_eq. Qed.

Lemma archive_flowchart files name text r :
  archive files name text r !! "flowchart.md" = Some (mermaid_chart r).
Proof.
  unfold archive. rewrite lookup_insert_ne by done. apply lookup_insert_eq.
Qed.

Lemma archive_logic files name text r :
  archive files name text r !! "decision_logic.txt" = Some (logic_text r).
Proof.
  unfold archive. rewrite !lookup_insert_ne by done. apply lookup_insert_eq.
Qed.

Lemma archive_prompt files name text r :
  name ∉ artifact_names → name ≠ "execution_metadata.json" →
  archive files name text r !! name = Some text.
Proof.
  unfold archive, artifact_names. intros Hn Hm.
  rewrite !lookup_insert_ne by set_solver. apply lookup_insert_eq.
Qed.

Lemma archive_other files name text r f :
  f ≠ name → f ∉ artifact_names → f ≠ "execution_metadata.json" →
  archive files name text r !! f = files !! f.
Proof.
  unfold archive, artifact_names. intros Hf Hn Hm.
  by rewrite !lookup_insert_ne by set_solver.
Qed.

Lemma recorded_topic_of_doc files text m :
  files !! "execution_metadata.json" = Some text → loads text = Some m →
  recorded_topic files = field "topic" m.
Proof.
  intros H1 H2. unfold recorded_topic. rewrite H1.
  cbn [mbind option_bind]. by rewrite H2.
Qed.

Lemma archive_recorded_topic files name text r :
  recorded_topic (archive files name text r)
  = Some (JString (topic_name (res_topic r))).
Proof.
  erewrite recorded_topic_of_doc;
    [|apply archive_metadata|apply loads_dumps_metadata].
  reflexivity.
Qed.

Lemma for_each_singleton {A B} (body : A → M B) x w b w' :
  body x w = Return b w' → for_each body [x] w = Return [b] w'.
Proof.
  intros H. cbn [for_each]. erewrite bind_return; [|done].
  by erewrite bind_return.
Qed.

Lemma note_body : body_text note_text = "Patient has chest pain".
Proof. by vm_compute. Qed.

(** C2 (amended).  Processing [note.txt] with the metadata line
    [# Topic: Emergency], a blank line and the body [Patient has chest pain]
    produces the archive directory [<ts>_note] holding [note.txt], the
    business-investment logic template, the business-investment flowchart
    and a metadata document whose topic is [generic_decision]: the
    metadata line is not part of the body the classifier reads. *)
Theorem note_scenario (r : gmap string node) (clk : nat → datetime)
  (tick : nat) (files : gmap string string) :
  existing_files r (strftime (clk (S (S tick))) +:+ "_note") = Some files →
  ∃ recs w' fs,
    process_all_prompts (note_world r clk tick) = Return recs w'
    ∧ run w' !! (strftime (clk (S (S tick))) +:+ "_note") = Some (Dir fs)
    ∧ fs !! "note.txt" = Some note_text
    ∧ fs !! "decision_logic.txt" = Some business_investment_logic_text
    ∧ fs !! "flowchart.md" = Some business_investment_mermaid_chart
    ∧ recorded_topic fs = Some (JString "generic_decision").
Proof.
  intros Hd. set (w := note_world r clk tick).
  assert (get_queued_prompts w = ["note.txt"]) as Hnames by by vm_compute.
  assert (queued w !! "note.txt" = Some (File note_text)) as Hq
    by apply lookup_singleton_eq.
  set (res := processed "note.txt" note_text (clk tick) (clk (S tick))).
  exists [record_of "note.txt" note_text w],
    (after_one "note.txt" note_text files w),
    (archive files "note.txt" note_text res).
  unfold process_all_prompts. rewrite Hnames.
  split; [apply for_each_singleton, (process_one_spec _ _ _ _ Hq Hd)|].
  split; [apply lookup_insert_eq|].
  split.
  { apply archive_prompt; [|done]. by apply (bool_decide_unpack _). }
  rewrite archive_logic, archive_flowchart, archive_recorded_topic.
  unfold res. cbn [logic_text mermaid_chart res_topic processed].
  rewrite note_body. split_and!; vm_compute; reflexivity.
Qed.

Lemma note_scenario_witness :
  ∃ recs w' fs,
    process_all_prompts (note_world ∅ (λ _, noon) 0) = Return recs w'
    ∧ run w' !! "20240102_120005_note" = Some (Dir fs)
    ∧ fs !! "note.txt" = Some note_text
    ∧ fs !! "decision_logic.txt" = Some business_investment_logic_text
    ∧ fs !! "flowchart.md" = Some business_investment_mermaid_chart
    ∧ recorded_topic fs = Some (JString "generic_decision").
Proof. apply (note_scenario ∅ (λ _, noon) 0 ∅). reflexivity. Defined.

(** C2 as stated fails: on an empty run root the archive of [note.txt]
    holds neither emergency-room template and records another topic. *)
Lemma note_scenario_counterexample :
  ∃ recs w' fs,
    process_all_prompts (note_world ∅ (λ _, noon) 0) = Return recs w'
    ∧ run w' !! "20240102_120005_note" = Some (Dir fs)
    ∧ fs !! "decision_logic.txt" ≠ Some emergency_room_logic_text
    ∧ fs !! "flowchart.md" ≠ Some emergency_room_mermaid_chart
    ∧ recorded_topic fs ≠ Some (JString "emergency_room").
Proof.
  destruct (process_all_prompts (note_world ∅ (λ _, noon) 0))
    as [e|recs w'] eqn:H; [by vm_compute in H|].
  vm_compute in H. injection H as _ <-.
  eexists _, _, _. split; [reflexivity|].
  split; [vm_compute; reflexivity|].
  split_and!; vm_compute; discriminate.
Qed.

(** ** The archiver on an existing directory *)

Lemma existing_files_dir r d files :
  r !! d = Some (Dir files) → existing_files r d = Some files.
Proof. unfold existing_files. by intros ->. Qed.

(** C4 (amended).  When a directory of the computed name already exists
    under the run root, the archiver reuses it without an error: the
    prompt is moved into it, the two artifacts and the metadata document are
    written over what it held under these names, its other files stay, and
    no other entry of the run root changes. *)
Theorem move_to_run_reuses_directory (name : string) (r : result)
  (w : world) (text : string) (files : gmap string string) :
  let d := run_subdir_name (clock w (ticks w)) name in
  queued w !! name = Some (File text) →
  run w !! d = Some (Dir files) →
  ∃ w',
    move_to_run name r w = Return (created d name) w'
    ∧ run w' !! d = Some (Dir (archive files name text r))
    ∧ (∀ d', d' ≠ d → run w' !! d' = run w !! d')
    ∧ ∀ f, f ≠ name → f ∉ artifact_names →
           f ≠ "execution_metadata.json" →
           archive files name text r !! f = files !! f.
Proof.
  intros d Hq Hd. eexists. split.
  { apply move_to_run_spec; [done|by apply existing_files_dir]. }
  cbn [run]. split; [apply lookup_insert_eq|].
  split; [intros d' Hd'; by rewrite lookup_insert_ne|].
  intros f. apply archive_other.
Qed.

Lemma move_to_run_reuses_directory_witness :
  ∃ w',
    move_to_run "note.txt" (processed "note.txt" "new prompt" noon noon)
      reuse_world
    = Return (created "20240102_120005_note" "note.txt") w'
    ∧ ∃ fs, run w' !! "20240102_120005_note" = Some (Dir fs)
            ∧ fs !! "summary.txt" = Some "kept".
Proof.
  destruct (move_to_run_reuses_directory "note.txt"
              (processed "note.txt" "new prompt" noon noon) reuse_world
              "new prompt"
              {[ "note.txt" := "old prompt";
                 "execution_metadata.json" := "old metadata";
                 "summary.txt" := "kept" ]})
    as (w' & Hm & Hd & _ & Hf); [reflexivity..|].
  exists w'. split; [exact Hm|]. eexists. split; [exact Hd|].
  rewrite Hf; [reflexivity|done| |done].
  by apply (bool_decide_unpack _).
Defined.

(** C4 as stated fails: with the directory of the computed name already in
    the run root, the archiver returns normally, creates no new directory, and
    replaces the prompt and the metadata document that the directory held. *)
Lemma move_to_run_reuses_directory_counterexample :
  ∃ old fc w' fs,
    run reuse_world !! "20240102_120005_note" = Some (Dir old)
    ∧ move_to_run "note.txt" (processed "note.txt" "new prompt" noon noon)
        reuse_world = Return fc w'
    ∧ (map_to_list (run w')).*1 = ["20240102_120005_note"]
    ∧ run w' !! "20240102_120005_note" = Some (Dir fs)
    ∧ old !! "note.txt" = Some "old prompt"
    ∧ fs !! "note.txt" = Some "new prompt"
    ∧ fs !! "execution_metadata.json" ≠ old !! "execution_metadata.json".
Proof.
  destruct (move_to_run "note.txt"
              (processed "note.txt" "new prompt" noon noon) reuse_world)
    as [e|fc w'] eqn:H; [by vm_compute in H|].
  vm_compute in H. injection H as <- <-.
  eexists _, _, _, _. split; [reflexivity|]. split; [reflexivity|].
  split; [vm_compute; reflexivity|].
  split; [vm_compute; reflexivity|].
  split; [vm_compute; reflexivity|].
  split; [vm_compute; reflexivity|]. vm_compute. discriminate.
Qed.

(** ** The metadata document *)

(** C7 (amended).  For every prompt [process_one] archives, the metadata
    document of its archive directory decodes to a JSON object with exactly
    the fields [original_prompt] (the name of the prompt file),
    [processed_at] (a string in ISO-8601 form, when the clock reading is a
    valid date), [topic] (one of the four names of the topic enumeration)
    and [files_generated] (the names of the two artifacts, each of which
    holds generated content in the directory); when the prompt is not
    itself named like an artifact, its name is not in the list and the
    relocated prompt is stored under it. *)
Theorem metadata_document_schema (name : string) (w w' : world)
  (rec : execution_record) :
  process_one name w = Return rec w' →
  valid (clock w (S (ticks w))) →
  ∃ d fs doc text topic,
    queued w !! name = Some (File text)
    ∧ metadata_file (rec_files_created rec)
      = ["run"; d; "execution_metadata.json"]
    ∧ run w' !! d = Some (Dir fs)
    ∧ fs !! "execution_metadata.json" = Some doc
    ∧ loads doc
      = Some (JObject
                [("original_prompt", JString name);
                 ("processed_at", JString (rec_processed_at rec));
                 ("topic", JString topic);
                 ("files_generated",
                   JArray [JString "decision_logic.txt";
                           JString "flowchart.md"])])
    ∧ is_iso8601 (rec_processed_at rec) = true
    ∧ topic = topic_name (rec_topic rec)
    ∧ topic ∈ ["emergency_room"; "software_deployment";
               "business_investment"; "generic_decision"]
    ∧ fs !! "decision_logic.txt" = Some (select_logic (body_text text)).1
    ∧ fs !! "flowchart.md" = Some (select_logic (body_text text)).2
    ∧ (name ∉ ["decision_logic.txt"; "flowchart.md"] →
       (JString name
        ∉ [JString "decision_logic.txt"; JString "flowchart.md"])
       ∧ (name ≠ "execution_metadata.json" → fs !! name = Some text)).
Proof.
  intros H Hv.
  apply process_one_inv in H as (text & files & Hq & Hd & -> & ->).
  set (r := processed name text (clock w (ticks w)) (clock w (S (ticks w)))).
  exists (run_subdir_name (clock w (S (S (ticks w)))) name),
    (archive files name text r), (dumps (metadata_doc name r)), text,
    (topic_name (res_topic r)).
  split; [done|]. split; [reflexivity|].
  split; [apply lookup_insert_eq|].
  split; [apply archive_metadata|].
  split; [exact (loads_dumps_metadata _ _ _)|].
  split; [by apply isoformat_iso8601|].
  split; [reflexivity|].
  split; [destruct (res_topic r); cbn [topic_name]; set_solver|].
  split; [apply archive_logic|].
  split; [apply archive_flowchart|].
  intros Hname. split.
  - intros [[=]|[[=]|[]%elem_of_nil]%elem_of_cons]%elem_of_cons;
      apply Hname; set_solver.
  - intros Hm. by apply archive_prompt.
Qed.

Lemma metadata_document_schema_witness :
  ∃ rec w' d fs doc,
    process_one "visit.md" hospital_world = Return rec w'
    ∧ run w' !! d = Some (Dir fs)
    ∧ fs !! "execution_metadata.json" = Some doc
    ∧ loads doc
      = Some (metadata_json "visit.md" (rec_processed_at rec)
                (topic_name (rec_topic rec)))
    ∧ is_iso8601 (rec_processed_at rec) = true.
Proof.
  destruct (process_one "visit.md" hospital_world) as [e|rec w'] eqn:H;
    [by vm_compute in H|].
  destruct (metadata_document_schema "visit.md" hospital_world w' rec H)
    as (d & fs & doc & text & topic & _ & _ & Hd & Hdoc & Hloads & Hiso
        & -> & _).
  { vm_compute. repeat split; congruence. }
  exists rec, w', d, fs, doc.
  split; [reflexivity|]. split; [exact Hd|]. split; [exact Hdoc|].
  split; [exact Hloads|exact Hiso].
Defined.

(** C7 as stated fails: for a prompt that is itself called [flowchart.md]
    the list [files_generated] holds the name of the prompt, and the
    relocated prompt is gone, replaced by the flowchart. *)
Lemma metadata_document_schema_counterexample :
  ∃ rec w' fs doc m,
    process_one "flowchart.md" flowchart_world = Return rec w'
    ∧ run w' !! "20240102_120005_flowchart" = Some (Dir fs)
    ∧ fs !! "execution_metadata.json" = Some doc
    ∧ loads doc = Some m
    ∧ field "original_prompt" m = Some (JString "flowchart.md")
    ∧ field "files_generated" m
      = Some (JArray [JString "decision_logic.txt"; JString "flowchart.md"])
    ∧ fs !! "flowchart.md" ≠ Some "Plan the software deployment".
Proof.
  destruct (process_one "flowchart.md" flowchart_world) as [e|rec w'] eqn:H;
    [by vm_compute in H|].
  vm_compute in H. injection H as <- <-.
  eexists _, _, _, _, _. split; [reflexivity|].
  split; [vm_compute; reflexivity|].
  split; [vm_compute; reflexivity|].
  split; [vm_compute; reflexivity|].
  split; [vm_compute; reflexivity|].
  split; [vm_compute; reflexivity|].
  vm_compute. discriminate.
Qed.

(** ** Topic and artifacts *)

(** C10.  For every prompt whose body mentions "hospital" and none of
    "emergency", "software", "deployment", "business", "investment", the
    pipeline records the topic [generic_decision] in the metadata document
    and writes the emergency-room templates as the two artifacts. *)
Theorem hospital_topic_and_artifacts_disagree (name text : string)
  (w : world) (files : gmap string string) :
  mentions "hospital" (body_text text) →
  (∀ kw, kw ∈ ["emergency"; "software"; "deployment"; "business";
               "investment"] → ¬ mentions kw (body_text text)) →
  queued w !! name = Some (File text) →
  existing_files (run w)
    (run_subdir_name (clock w (S (S (ticks w)))) name) = Some files →
  ∃ rec w' fs,
    process_one name w = Return rec w'
    ∧ rec_topic rec = generic_decision
    ∧ run w' !! run_subdir_name (clock w (S (S (ticks w)))) name
      = Some (Dir fs)
    ∧ recorded_topic fs = Some (JString "generic_decision")
    ∧ fs !! "decision_logic.txt" = Some emergency_room_logic_text
    ∧ fs !! "flowchart.md" = Some emergency_room_mermaid_chart.
Proof.
  intros Hh Hno Hq Hd.
  assert (extract_topic (body_text text) = generic_decision) as Ht.
  { unfold extract_topic.
    rewrite !(proj2 (contains_false_mentions _ _)) by (apply Hno; set_solver).
    done. }
  assert (select_logic (body_text text) = create_emergency_room_logic) as Hs.
  { unfold select_logic.
    rewrite (proj2 (contains_mentions "hospital" _) Hh).
    by rewrite orb_true_r. }
  set (r := processed name text (clock w (ticks w)) (clock w (S (ticks w)))).
  exists (record_of name text w), (after_one name text files w),
    (archive files name text r).
  split; [by apply process_one_spec|].
  split; [exact Ht|].
  split; [apply lookup_insert_eq|].
  rewrite archive_recorded_topic, archive_logic, archive_flowchart.
  unfold r. cbn [res_topic logic_text mermaid_chart processed].
  rewrite Ht, Hs. done.
Qed.

Lemma hospital_topic_and_artifacts_disagree_witness :
  ∃ rec w' fs,
    process_one "visit.md" hospital_world = Return rec w'
    ∧ rec_topic rec = generic_decision
    ∧ run w' !! "20240102_120005_visit" = Some (Dir fs)
    ∧ recorded_topic fs = Some (JString "generic_decision")
    ∧ fs !! "decision_logic.txt" = Some emergency_room_logic_text
    ∧ fs !! "flowchart.md" = Some emergency_room_mermaid_chart.
Proof.
  apply (hospital_topic_and_artifacts_disagree "visit.md" hospital_text
           hospital_world ∅).
  - apply contains_mentions. vm_compute. reflexivity.
  - intros kw Hkw. apply contains_false_mentions.
    repeat (apply elem_of_cons in Hkw as [->|Hkw];
            [vm_compute; reflexivity|]).
    by apply elem_of_nil in Hkw.
  - reflexivity.
  - reflexivity.
Defined.

(** ** The history reader *)

Section history_facts.

Lemma for_each_pure {A B} (body : A → M B) (f : A → B) l w :
  (∀ x, x ∈ l → body x w = Return (f x) w) →
  for_each body l w = Return (f <$> l) w.
Proof.
  induction l as [|x l IH]; intros H; [done|].
  cbn [for_each]. erewrite bind_return; [|apply H; by left].
  erewrite bind_return; [|apply IH; intros; apply H; by right]. done.
Qed.

Lemma for_each_raise {A B} (body : A → M B) l w e x :
  (∀ y, y ∈ l → body y w = Raise e ∨ ∃ b, body y w = Return b w) →
  x ∈ l → body x w = Raise e → for_each body l w = Raise e.
Proof.
  induction l as [|y l IH]; intros H Hx Hr; [by apply elem_of_nil in Hx|].
  cbn [for_each]. destruct (H y) as [Hy|[b Hy]]; [by left| |].
  { by erewrite bind_raise. }
  erewrite bind_return; [|done].
  apply elem_of_cons in Hx as [->|Hx]; [congruence|].
  erewrite bind_raise; [done|]. apply IH; [|done..].
  intros; apply H; by right.
Qed.

Lemma load_metadata_spec r d w :
  (∀ n, r !! d = Some n → decodable n) →
  load_metadata r d w = Return (option_list (record r d)) w.
Proof.
  intros H. unfold load_metadata, record.
  destruct (r !! d) as [[c|files]|] eqn:Hd; [done| |done].
  cbn [mbind option_bind document].
  destruct (files !! "execution_metadata.json") as [text|] eqn:Hf; [|done].
  cbn [mbind option_bind].
  destruct (H _ eq_refl text Hf) as [m ->]. done.
Qed.

Lemma load_metadata_cases r d w :
  load_metadata r d w = Raise JSONDecodeError
  ∨ ∃ b, load_metadata r d w = Return b w.
Proof.
  unfold load_metadata.
  destruct (r !! d) as [[c|files]|]; [right; by eexists| |right; by eexists].
  destruct (files !! "execution_metadata.json") as [text|];
    [|right; by eexists].
  destruct (loads text); [right; by eexists|by left].
Qed.

Lemma concat_option_list {A B} (f : A → option B) l :
  concat ((λ x, option_list (f x)) <$> l) = omap f l.
Proof.
  induction l as [|x l IH]; [done|]. cbn. rewrite IH. by destruct (f x).
Qed.

Lemma omap_Forall2 {A B} (f : A → option B) l :
  Forall2 (λ x y, f x = Some y) (filter (λ x, is_Some (f x)) l) (omap f l).
Proof.
  induction l as [|x l IH]; [constructor|].
  rewrite filter_cons. cbn [omap list_omap].
  destruct (f x) as [y|] eqn:E.
  - rewrite decide_True by done. by constructor.
  - rewrite decide_False by (by intros []). done.
Qed.

Lemma StronglySorted_filter {A} (R : relation A) (P : A → Prop)
  `{∀ x, Decision (P x)} l :
  StronglySorted R l → StronglySorted R (filter P l).
Proof.
  induction 1 as [|x l Hl IH Hx]; [constructor|].
  rewrite filter_cons. case_decide; [|done].
  constructor; [done|]. rewrite Forall_forall in *.
  intros y [_ Hy]%list_elem_of_filter. by apply Hx.
Qed.

Lemma NoDup_fst_filter {A B} (P : A * B → Prop) `{∀ x, Decision (P x)} l :
  NoDup l.*1 → NoDup (filter P l).*1.
Proof.
  induction l as [|x l IH]; [done|]. cbn [fmap list_fmap].
  rewrite NoDup_cons. intros [Hx Hl]. rewrite filter_cons.
  case_decide; [|by apply IH]. cbn [fmap list_fmap].
  apply NoDup_cons. split; [|by apply IH].
  intros Hin. apply Hx. apply list_elem_of_fmap in Hin as (y & -> & Hy).
  apply list_elem_of_filter in Hy as [_ Hy].
  apply list_elem_of_fmap. by exists y.
Qed.

#[local] Instance flip_le_trans : Transitive (flip String.le).
Proof. intros a b c ??. unfold flip in *. by etrans. Qed.

#[local] Instance flip_le_total : Total (flip String.le).
Proof. intros a b. unfold flip. destruct (total String.le a b); auto. Qed.

Lemma elem_of_run_subdirs r d :
  d ∈ run_subdirs r ↔ ∃ files, r !! d = Some (Dir files).
Proof.
  unfold run_subdirs. rewrite merge_sort_Permutation, list_elem_of_fmap.
  split.
  - intros ([d' n] & -> & [Hn Hin]%list_elem_of_filter).
    apply elem_of_map_to_list in Hin. destruct n; [done|by eexists].
  - intros [files Hd]. exists (d, Dir files). split; [done|].
    apply list_elem_of_filter. split; [done|]. by apply elem_of_map_to_list.
Qed.

Lemma run_subdirs_sorted r :
  StronglySorted (flip String.le) (run_subdirs r) ∧ NoDup (run_subdirs r).
Proof.
  unfold run_subdirs. split; [apply StronglySorted_merge_sort; apply _|].
  rewrite merge_sort_Permutation.
  apply NoDup_fst_filter, NoDup_fst_map_to_list.
Qed.

Lemma sorted_before {A} (R : relation A) `{!AntiSymm (=) R} l a b :
  StronglySorted R l → a ∈ l → b ∈ l → R b a → a ≠ b →
  ∃ l1 l2 l3, l = l1 ++ b :: l2 ++ a :: l3.
Proof.
  intros Hs Ha Hb HR Hne.
  apply list_elem_of_split in Ha as (k1 & k2 & ->).
  apply elem_of_app in Hb as [Hb|Hb].
  - apply list_elem_of_split in Hb as (l1 & l2 & ->).
    exists l1, l2, k2. by rewrite <- (assoc_L (++)).
  - apply elem_of_cons in Hb as [->|Hb]; [done|].
    apply StronglySorted_app_1_r, StronglySorted_cons in Hs as [Hall _].
    rewrite Forall_forall in Hall.
    destruct Hne. apply (anti_symm R); [by apply Hall|done].
Qed.

End history_facts.

Lemma record_document r d :
  (∀ n, r !! d = Some n → decodable n) →
  is_Some (record r d) ↔ ∃ n, r !! d = Some n ∧ is_Some (document n).
Proof.
  intros H. unfold record. destruct (r !! d) as [n|] eqn:Hd.
  - cbn [mbind option_bind]. split.
    + intros [m Hm]. exists n. split; [done|].
      destruct (document n); [by eexists|done].
    + intros (n' & [= <-] & [text Ht]). rewrite Ht. cbn [mbind option_bind].
      by eapply H.
  - split; [by intros []|]. by intros (n & [=] & _).
Qed.

Lemma record_run_subdirs r d : is_Some (record r d) → d ∈ run_subdirs r.
Proof.
  intros [m Hm]. apply elem_of_run_subdirs. unfold record in Hm.
  destruct (r !! d) as [[c|files]|]; [done|by eexists|done].
Qed.

(** C8 (amended).  When every metadata document under the run root
    decodes, the history reader returns, without changing anything, the
    records of the directories that hold a metadata document, one per
    directory, in descending order of directory name; directories without
    a document and plain files contribute nothing.  Hence the record of a
    directory comes before that of any directory with a smaller name. *)
Theorem history_most_recent_first (w : world) :
  (∀ d n, run w !! d = Some n → decodable n) →
  ∃ dirs recs,
    get_run_history w = Return recs w
    ∧ Forall2 (λ d m, record (run w) d = Some m) dirs recs
    ∧ (∀ d, d ∈ dirs ↔
            ∃ files, run w !! d = Some (Dir files)
                     ∧ is_Some (files !! "execution_metadata.json"))
    ∧ StronglySorted (flip String.le) dirs ∧ NoDup dirs
    ∧ ∀ da db ma mb,
        record (run w) da = Some ma → record (run w) db = Some mb →
        String.le da db → da ≠ db →
        ∃ l1 l2 l3, recs = l1 ++ mb :: l2 ++ ma :: l3.
Proof.
  intros Hdec. set (r := run w).
  set (dirs := filter (λ d, is_Some (record r d)) (run_subdirs r)).
  destruct (run_subdirs_sorted r) as [Hsort Hnd].
  assert (∀ d, d ∈ dirs ↔ is_Some (record r d)) as Hin.
  { intros d. unfold dirs. rewrite list_elem_of_filter.
    split; [tauto|]. intros H. split; [done|by apply record_run_subdirs]. }
  assert (StronglySorted (flip String.le) dirs) as Hsorted
    by by apply StronglySorted_filter.
  pose proof (omap_Forall2 (record r) (run_subdirs r)) as Hall. fold dirs in Hall.
  exists dirs, (omap (record r) (run_subdirs r)). split_and!.
  - unfold get_run_history. erewrite bind_return; [|done].
    erewrite bind_return.
    2:{ apply for_each_pure with (f := λ d, option_list (record r d)).
        intros d _. apply load_metadata_spec, Hdec. }
    by rewrite concat_option_list.
  - exact Hall.
  - intros d. rewrite Hin, record_document by apply Hdec. split.
    + intros ([c|files] & Hd & Hdoc); [by destruct Hdoc|eauto].
    + intros (files & Hd & Hdoc). by exists (Dir files).
  - exact Hsorted.
  - by apply NoDup_filter.
  - intros da db ma mb Ha Hb Hle Hne.
    assert (AntiSymm (=) (flip String.le)) as Hanti
      by (intros a b ??; by apply (anti_symm String.le)).
    destruct (sorted_before (flip String.le) dirs da db)
      as (k1 & k2 & k3 & Hk); [done|by apply Hin..|done|done|].
    rewrite Hk in Hall.
    apply Forall2_app_inv_l in Hall as (l1 & r1 & _ & Hall & ->).
    apply Forall2_cons_inv_l in Hall as (mb' & r2 & Hb' & Hall & ->).
    apply Forall2_app_inv_l in Hall as (l2 & r3 & _ & Hall & ->).
    apply Forall2_cons_inv_l in Hall as (ma' & l3 & Ha' & _ & ->).
    exists l1, l2, l3. congruence.
Qed.

Lemma history_most_recent_first_witness :
  ∃ recs l1 l2 l3,
    get_run_history history_world = Return recs history_world
    ∧ recs = l1 ++ record_b :: l2 ++ record_a :: l3.
Proof.
  destruct (history_most_recent_first history_world)
    as (dirs & recs & Hret & _ & _ & _ & _ & Hord).
  { intros d n. unfold history_world, history_run. cbn [run].
    rewrite !lookup_insert_Some, lookup_empty.
    intros [[_ <-]|[_ [[_ <-]|[_ [[_ <-]|[_ [[_ <-]|[_ [=]]]]]]]]] text;
      cbn [document]; [| | |done].
    - rewrite lookup_singleton_Some. intros [_ <-]. unfold record_a.
      rewrite loads_dumps_metadata. by eexists.
    - rewrite lookup_singleton_Some. intros [_ <-]. unfold record_b.
      rewrite loads_dumps_metadata. by eexists.
    - rewrite lookup_singleton_Some. by intros [[=] _]. }
  destruct (Hord "20240101_120000_a" "20240102_090000_b" record_a record_b)
    as (l1 & l2 & l3 & Hrecs).
  - vm_compute. reflexivity.
  - vm_compute. reflexivity.
  - vm_compute. exact I.
  - by apply (bool_decide_unpack _).
  - exists recs, l1, l2, l3. split; [exact Hret|exact Hrecs].
Defined.

(** C8 as stated fails: the directories [20240101_120000_a] and
    [20240102_090000_b] hold records, and yet the history reader returns
    neither of them, in any order, once a third directory holds a document
    that does not decode. *)
Lemma history_most_recent_first_counterexample :
  (∃ fa fb, run broken_world !! "20240101_120000_a" = Some (Dir fa)
            ∧ run broken_world !! "20240102_090000_b" = Some (Dir fb)
            ∧ (fa !! "execution_metadata.json" ≫= loads) = Some record_a
            ∧ (fb !! "execution_metadata.json" ≫= loads) = Some record_b)
  ∧ ∀ recs w', get_run_history broken_world ≠ Return recs w'.
Proof.
  split.
  - eexists _, _. split; [vm_compute; reflexivity|].
    split; [vm_compute; reflexivity|].
    split; vm_compute; reflexivity.
  - intros recs w' H. vm_compute in H. discriminate H.
Qed.

(** C9 (amended).  When some directory under the run root holds a metadata
    document that does not decode, the history reader fails with the
    decoder's error and returns no record at all. *)
Theorem history_malformed_document_raises (w : world) (d : string)
  (files : gmap string string) (text : string) :
  run w !! d = Some (Dir files) →
  files !! "execution_metadata.json" = Some text →
  loads text = None →
  get_run_history w = Raise JSONDecodeError.
Proof.
  intros Hd Hf Hl. unfold get_run_history.
  erewrite bind_return; [|done].
  erewrite bind_raise; [done|].
  apply for_each_raise with (x := d).
  - intros y _. apply load_metadata_cases.
  - apply elem_of_run_subdirs. by eexists.
  - unfold load_metadata. by rewrite Hd, Hf, Hl.
Qed.

Lemma history_malformed_document_raises_witness :
  get_run_history broken_world = Raise JSONDecodeError.
Proof.
  apply (history_malformed_document_raises broken_world "20240104_070000_d"
           {[ "execution_metadata.json" := "{ broken" ]} "{ broken").
  - reflexivity.
  - reflexivity.
  - vm_compute. reflexivity.
Defined.

(** C9 as stated fails: with one malformed document next to two archives
    whose documents decode, the history reader returns nothing, although
    without the malformed one it returns both records. *)
Lemma history_malformed_document_raises_counterexample :
  record (run broken_world) "20240101_120000_a" = Some record_a
  ∧ record (run broken_world) "20240102_090000_b" = Some record_b
  ∧ get_run_history history_world
    = Return [record_b; record_a] history_world
  ∧ ¬ ∃ recs w', get_run_history broken_world = Return recs w'.
Proof.
  split; [vm_compute; reflexivity|].
  split; [vm_compute; reflexivity|].
  split; [vm_compute; reflexivity|].
  intros (recs & w' & H). vm_compute in H. discriminate H.
Qed.

(** * Further properties of the code *)

(** ** The scanner *)

Lemma endswith_txt_md name :
  endswith ".txt" name = true → endswith ".md" name = true → False.
Proof.
  induction name as [|c name IH]; [done|]. cbn [endswith].
  intros [Ht|Ht]%orb_true_iff [Hm|Hm]%orb_true_iff.
  - apply String.eqb_eq in Ht, Hm. congruence.
  - apply String.eqb_eq in Ht. by simplify_eq.
  - apply String.eqb_eq in Hm. by simplify_eq.
  - by apply IH.
Qed.

Lemma glob_NoDup suffix d : NoDup (glob suffix d).
Proof. apply NoDup_filter, NoDup_fst_map_to_list. Qed.

Lemma get_queued_prompts_NoDup w : NoDup (get_queued_prompts w).
Proof.
  unfold get_queued_prompts. rewrite merge_sort_Permutation.
  apply NoDup_app. split_and!; [apply glob_NoDup| |apply glob_NoDup].
  unfold glob. intros f [Ht _]%list_elem_of_filter [Hm _]%list_elem_of_filter.
  by eapply endswith_txt_md.
Qed.

Lemma get_queued_prompts_nil w :
  (∀ f, is_Some (queued w !! f) → ¬ recognized f) →
  get_queued_prompts w = [].
Proof.
  intros H. destruct (get_queued_prompts w) as [|f l] eqn:E; [done|].
  assert (f ∈ get_queued_prompts w) as Hf by (rewrite E; by left).
  apply elem_of_get_queued_prompts in Hf as [Hq Hr]. by destruct (H f).
Qed.

(** X1.  The scanner returns the names of the queue entries that end in
    [.txt] or [.md], each once, in ascending order. *)
Theorem get_queued_prompts_sorted_set (w : world) :
  StronglySorted String.le (get_queued_prompts w)
  ∧ NoDup (get_queued_prompts w)
  ∧ ∀ f, f ∈ get_queued_prompts w ↔ is_Some (queued w !! f) ∧ recognized f.
Proof.
  split; [apply StronglySorted_merge_sort; apply _|].
  split; [apply get_queued_prompts_NoDup|].
  apply elem_of_get_queued_prompts.
Qed.

(** X2.  With no entry of a recognized extension in the queue, a pass
    returns the empty list and changes nothing: the clock is not read and
    no directory is made. *)
Theorem pass_on_empty_queue (w : world) :
  (∀ f, is_Some (queued w !! f) → ¬ recognized f) →
  process_all_prompts w = Return [] w.
Proof.
  intros H. unfold process_all_prompts.
  by rewrite (get_queued_prompts_nil w H).
Qed.

Lemma pass_on_empty_queue_witness :
  let w := {| queued := {[ "notes.json" := File "{}" ]}; run := ∅;
              clock := λ _, noon; ticks := 0 |} in
  process_all_prompts w = Return [] w.
Proof.
  apply pass_on_empty_queue. cbn [queued]. intros f [n Hf].
  apply lookup_singleton_Some in Hf as [<- _].
  vm_compute. by intros [|].
Defined.

(** ** Passes that complete, and passes that cannot *)

Lemma pass_files names w recs w' :
  for_each process_one names w = Return recs w' →
  ∀ f, f ∈ names → ∃ text, queued w !! f = Some (File text).
Proof.
  revert w recs. induction names as [|x l IH]; intros w recs H f Hf;
    [by apply elem_of_nil in Hf|].
  apply for_each_cons in H as (b & w1 & bs & H1 & H & ->).
  apply process_one_inv in H1 as (text & files & Hq & Hd & -> & ->).
  apply elem_of_cons in Hf as [->|Hf]; [by eexists|].
  destruct (IH _ _ H f Hf) as [t Ht]. cbn [queued after_one] in Ht.
  apply lookup_delete_Some in Ht as [_ Ht]. by eexists.
Qed.

Lemma pass_returns (q0 : gmap string node) names w :
  NoDup names →
  (∀ f, f ∈ names → queued w !! f = q0 !! f) →
  (∀ f, f ∈ names → ∃ text, q0 !! f = Some (File text)) →
  (∀ d c, d ∈ pass_dirs (clock w) (ticks w) names →
          run w !! d ≠ Some (File c)) →
  ∃ recs w',
    for_each process_one names w = Return recs w'
    ∧ Forall2 (λ f rec,
        original_file rec = f
        ∧ ∃ text, q0 !! f = Some (File text)
                  ∧ rec_topic rec = extract_topic (body_text text))
        names recs.
Proof.
  revert w. induction names as [|name names IH]; intros w Hnd Hq0 Hfile Hrun.
  { exists [], w. split; [done|constructor]. }
  apply NoDup_cons in Hnd as [Hname Hnd].
  destruct (Hfile name) as [text Htext]; [by left|].
  assert (queued w !! name = Some (File text)) as Hq
    by (rewrite Hq0; [done|by left]).
  set (d0 := run_subdir_name (clock w (S (S (ticks w)))) name).
  assert (∃ files, existing_files (run w) d0 = Some files) as [files Hd].
  { unfold existing_files.
    destruct (run w !! d0) as [[c|fs]|] eqn:E; [|by eexists..].
    destruct (Hrun d0 c); [by left|done]. }
  destruct (IH (after_one name text files w)) as (recs & w' & Hrest & Hall).
  - done.
  - intros f Hf. cbn [queued after_one].
    rewrite lookup_delete_ne by set_solver. apply Hq0. by right.
  - intros f Hf. apply Hfile. by right.
  - intros d c Hin. cbn [run clock ticks after_one] in *. fold d0.
    destruct (decide (d = d0)) as [->|Hne].
    + by rewrite lookup_insert_eq.
    + rewrite lookup_insert_ne by done. apply Hrun. by right.
  - exists (record_of name text w :: recs), w'. split.
    + cbn [for_each].
      erewrite bind_return; [|by apply process_one_spec].
      by erewrite bind_return.
    + constructor; [|done]. split; [done|]. by exists text.
Qed.




(** X4.  A directory of the queue whose name has a recognized extension is
    picked up like a file: reading it fails with [IsADirectoryError], and
    no pass over such a queue completes. *)
Theorem pass_fails_on_queued_directory (w : world) (f : string)
  (entries : gmap string string) :
  queued w !! f = Some (Dir entries) → recognized f →
  process_one f w = Raise IsADirectoryError
  ∧ ∃ e, process_all_prompts w = Raise e.
Proof.
  intros Hq Hr. split.
  - unfold process_one, read_prompt_content.
    erewrite bind_raise; [done|].
    erewrite bind_raise; [done|]. unfold read_text. by rewrite Hq.
  - destruct (process_all_prompts w) as [e|recs w'] eqn:H; [by eexists|].
    unfold process_all_prompts in H.
    destruct (pass_files _ _ _ _ H f) as [text Ht]; [|congruence].
    apply elem_of_get_queued_prompts. split; [by eexists|done].
Qed.

Lemma pass_fails_on_queued_directory_witness :
  ∃ e,
    process_all_prompts
      {| queued := {[ "a.md" := File "first"; "drafts.txt" := Dir ∅ ]};
         run := ∅; clock := λ _, noon; ticks := 0 |} = Raise e.
Proof.
  eapply (pass_fails_on_queued_directory _ "drafts.txt" ∅).
  - reflexivity.
  - left. reflexivity.
Defined.

Lemma pass_run_others names w recs w' :
  for_each process_one names w = Return recs w' →
  length recs = length names
  ∧ ∀ d, d ∉ pass_dirs (clock w) (ticks w) names → run w' !! d = run w !! d.
Proof.
  revert w recs. induction names as [|name names IH]; intros w recs H.
  { cbn in H. unfold mret, M_ret in H. by simplify_eq. }
  apply for_each_cons in H as (b & w1 & bs & H1 & H & ->).
  apply process_one_inv in H1 as (text & files & Hq & Hd & -> & ->).
  apply IH in H as [Hlen Hrun]. cbn [clock ticks run after_one] in Hrun.
  split; [cbn [length]; by rewrite Hlen|].
  intros d Hd'. cbn [pass_dirs] in Hd'.
  apply not_elem_of_cons in Hd' as [Hne Hd'].
  rewrite Hrun by done. by rewrite lookup_insert_ne.
Qed.

(** X5.  A pass that completes touches nothing but its prompts and its
    archive directories: queue entries without a recognized extension stay
    as they are, every entry of the run root other than the directories the
    pass names stays as it is, and the clock is read three times per
    prompt. *)
Theorem pass_touches_nothing_else (w w' : world)
  (recs : list execution_record) :
  process_all_prompts w = Return recs w' →
  (∀ f, ¬ recognized f → queued w' !! f = queued w !! f)
  ∧ (∀ d, d ∉ pass_dirs (clock w) (ticks w) (get_queued_prompts w) →
          run w' !! d = run w !! d)
  ∧ length recs = length (get_queued_prompts w)
  ∧ clock w' = clock w
  ∧ ticks w' = 3 * length recs + ticks w.
Proof.
  unfold process_all_prompts. intros H.
  destruct (pass_queue _ _ _ _ H) as (Hc & Ht & Hq).
  destruct (pass_run_others _ _ _ _ H) as [Hlen Hrun].
  split_and!; [|done..|by rewrite Hlen].
  intros f Hf. rewrite Hq. apply decide_False.
  intros [_ ?]%elem_of_get_queued_prompts. done.
Qed.

Lemma pass_touches_nothing_else_witness :
  ∃ recs w',
    process_all_prompts
      {| queued := {[ "a.md" := File "first"; "notes.json" := File "{}" ]};
         run := {[ "old" := Dir ∅ ]}; clock := λ _, noon; ticks := 0 |}
    = Return recs w'
    ∧ queued w' !! "notes.json" = Some (File "{}")
    ∧ run w' !! "old" = Some (Dir ∅)
    ∧ ticks w' = 3.
Proof.
  set (w := {| queued := {[ "a.md" := File "first";
                            "notes.json" := File "{}" ]};
               run := {[ "old" := Dir ∅ ]}; clock := λ _, noon;
               ticks := 0 |}).
  destruct (process_all_prompts w) as [e|recs w'] eqn:H;
    [by vm_compute in H|].
  destruct (pass_touches_nothing_else w w' recs H)
    as (Hq & Hr & Hlen & _ & Ht).
  exists recs, w'. split; [done|]. split_and!.
  - rewrite Hq; [reflexivity|]. vm_compute. by intros [|].
  - rewrite Hr; [reflexivity|]. apply (bool_decide_unpack _). by vm_compute.
  - rewrite Ht, Hlen. reflexivity.
Defined.

(** X6.  When the name of the archive directory is taken by a plain file
    of the run root, the archiver fails with [FileExistsError]. *)
Theorem move_to_run_name_taken_by_file (name : string) (r : result)
  (w : world) (c : string) :
  run w !! run_subdir_name (clock w (ticks w)) name = Some (File c) →
  move_to_run name r w = Raise FileExistsError.
Proof.
  intros Hd. unfold move_to_run.
  erewrite bind_return; [|done].
  change (strftime _ +:+ "_" +:+ stem name)
    with (run_subdir_name (clock w (ticks w)) name).
  erewrite bind_raise; [done|].
  unfold mkdir_exist_ok. erewrite bind_return; [|done].
  cbn [run]. by rewrite Hd.
Qed.

Lemma move_to_run_name_taken_by_file_witness :
  move_to_run "note.txt" (processed "note.txt" "new prompt" noon noon)
    {| queued := {[ "note.txt" := File "new prompt" ]};
       run := {[ "20240102_120005_note" := File "in the way" ]};
       clock := λ _, noon; ticks := 0 |}
  = Raise FileExistsError.
Proof.
  by apply (move_to_run_name_taken_by_file _ _ _ "in the way").
Defined.

(** ** The parser *)

(** X7.  Once the prompt file has been read as text, nothing else in
    [read_prompt_content] can fail, whatever the text: the two-way
    unpacking of a metadata line cannot raise, and the result carries the
    file name, the parsed metadata and body, and the clock reading. *)
Theorem read_prompt_content_returns (name text : string) (w w1 : world) :
  read_text name w = Return text w1 →
  ∃ md body,
    parse_prompt text = Some (md, body)
    ∧ read_prompt_content name w
      = Return {| filename := name; content := body; metadata := md;
                  timestamp := isoformat (clock w1 (ticks w1)) |}
          {| queued := queued w1; run := run w1; clock := clock w1;
             ticks := S (ticks w1) |}.
Proof.
  intros H. eexists _, _. split; [apply parse_prompt_spec|].
  unfold read_prompt_content. erewrite bind_return; [|exact H].
  rewrite parse_prompt_spec. by erewrite bind_return.
Qed.

Lemma read_prompt_content_returns_witness :
  ∃ md body,
    parse_prompt "#: #:: ::" = Some (md, body)
    ∧ read_prompt_content "odd.txt"
        {| queued := {[ "odd.txt" := File "#: #:: ::" ]}; run := ∅;
           clock := λ _, noon; ticks := 0 |}
      = Return {| filename := "odd.txt"; content := body; metadata := md;
                  timestamp := "2024-01-02T12:00:05" |}
          {| queued := {[ "odd.txt" := File "#: #:: ::" ]}; run := ∅;
             clock := λ _, noon; ticks := 1 |}.
Proof.
  destruct (read_prompt_content_returns "odd.txt" "#: #:: ::"
              {| queued := {[ "odd.txt" := File "#: #:: ::" ]}; run := ∅;
                 clock := λ _, noon; ticks := 0 |}
              {| queued := {[ "odd.txt" := File "#: #:: ::" ]}; run := ∅;
                 clock := λ _, noon; ticks := 0 |})
    as (md & body & Hp & Hr); [reflexivity|].
  exists md, body. split; [exact Hp|exact Hr].
Defined.

Lemma strip_blank_l lead s : blank lead = true → strip (lead +:+ s) = strip s.
Proof.
  induction lead as [|c lead IH]; [by rewrite sapp_empty_l|].
  cbn [blank]. intros [Hc Hl]%andb_true_iff.
  rewrite sapp_cons, strip_cons_space by done. by apply IH.
Qed.

Lemma strip_blank_r s trail :
  blank trail = true → strip (s +:+ trail) = strip s.
Proof.
  revert s. induction trail as [|c trail IH]; intros s;
    [by rewrite sapp_empty_r|].
  cbn [blank]. intros [Hc Hl]%andb_true_iff.
  replace (s +:+ String c trail) with ((s +:+ String c "") +:+ trail)
    by by rewrite sapp_assoc, sapp_cons, sapp_empty_l.
  rewrite IH by done. by apply strip_snoc_space.
Qed.

(** X8.  Whitespace around the content of a prompt file, blank lines
    included, does not change what the parser returns. *)
Theorem parse_prompt_surrounding_whitespace (lead text trail : string) :
  blank lead = true → blank trail = true →
  parse_prompt (lead +:+ text +:+ trail) = parse_prompt text.
Proof.
  intros Hl Ht. unfold parse_prompt.
  by rewrite strip_blank_l, strip_blank_r.
Qed.

Lemma parse_prompt_surrounding_whitespace_witness :
  parse_prompt (String nl (String nl "  ")
                +:+ "# Topic: A" +:+ String nl "body" +:+ String nl " ")
  = parse_prompt ("# Topic: A" +:+ String nl "body").
Proof.
  by apply (parse_prompt_surrounding_whitespace (String nl (String nl "  "))
              ("# Topic: A" +:+ String nl "body") (String nl " ")).
Defined.

Lemma dict_get_set k k' v d :
  dict_get k (dict_set k' v d)
  = if decide (k' = k) then Some v else dict_get k d.
Proof.
  induction d as [|[k0 v0] d IH]; cbn [dict_set dict_get].
  - destruct (String.eqb_spec k' k); by case_decide.
  - destruct (String.eqb_spec k0 k') as [->|Hk0]; cbn [dict_get].
    + destruct (String.eqb_spec k' k); by case_decide.
    + rewrite IH. destruct (String.eqb_spec k0 k) as [->|]; [|done].
      by rewrite decide_False.
Qed.

Lemma dict_set_keys k v d :
  (dict_set k v d).*1 = if decide (k ∈ d.*1) then d.*1 else d.*1 ++ [k].
Proof.
  induction d as [|[k0 v0] d IH]; cbn [dict_set]; [done|].
  destruct (String.eqb_spec k0 k) as [->|Hk0].
  - cbn [fmap list_fmap fst]. by rewrite decide_True by by left.
  - cbn [fmap list_fmap fst] in *. rewrite IH.
    destruct (decide (k ∈ d.*1)) as [Hin|Hout].
    + by rewrite decide_True by by right.
    + rewrite decide_False; [done|]. by intros [->|?]%elem_of_cons.
Qed.

Lemma metadata_fold_snoc l kv :
  foldl (λ md kv, dict_set kv.1 kv.2 md) [] (l ++ [kv])
  = dict_set kv.1 kv.2 (foldl (λ md kv, dict_set kv.1 kv.2 md) [] l).
Proof. by rewrite foldl_app. Qed.

Lemma metadata_fold_spec l :
  let md := foldl (λ md kv, dict_set kv.1 kv.2 md) [] l in
  NoDup md.*1
  ∧ ∀ k, dict_get k md = last (filter (λ kv, kv.1 = k) l).*2.
Proof.
  induction l as [|[k' v] l [IHnd IHget]] using rev_ind.
  { split; [constructor|done]. }
  cbn zeta. rewrite metadata_fold_snoc. cbn [fst snd]. split.
  - rewrite dict_set_keys. case_decide as Hin; [done|].
    apply NoDup_app. split_and!; [done| |apply NoDup_singleton].
    intros x Hx ->%list_elem_of_singleton. done.
  - intros k. rewrite dict_get_set, IHget, filter_app, fmap_app.
    rewrite filter_cons, filter_nil. cbn [fst].
    case_decide as Hk; [|by rewrite app_nil_r].
    cbn [fmap list_fmap snd]. by rewrite last_snoc.
Qed.

(** X9.  The metadata of a prompt has one entry per key, and the value of
    a key is that of the last metadata line carrying it: later lines
    overwrite earlier ones. *)
Theorem metadata_last_value_wins (text : string) :
  ∃ md body,
    parse_prompt text = Some (md, body)
    ∧ NoDup md.*1
    ∧ ∀ k, dict_get k md = last (filter (λ kv, kv.1 = k) (entries text)).*2.
Proof.
  eexists _, _. split; [apply parse_prompt_spec|].
  apply metadata_fold_spec.
Qed.

(** ** Topic and templates *)

(** X10.  The templates a prompt gets are those of its topic, the
    fallback topic taking the business-investment pair, exactly when its
    body does not mention "hospital" without mentioning "emergency". *)
Theorem templates_follow_topic (body : string) :
  select_logic body = templates_of (extract_topic body)
  ↔ (mentions "hospital" body → mentions "emergency" body).
Proof.
  rewrite <- !contains_mentions. unfold select_logic, extract_topic.
  destruct (contains "emergency" (lower body)); cbn [orb templates_of];
    [done|].
  destruct (contains "hospital" (lower body)); cbn [orb].
  - split; [|by intros H; specialize (H eq_refl)].
    intros H. exfalso. revert H.
    destruct (contains "software" (lower body) ||
              contains "deployment" (lower body));
      [|destruct (contains "business" (lower body) ||
                  contains "investment" (lower body))];
      cbn [templates_of]; vm_compute; discriminate.
  - split; [done|]. intros _.
    destruct (contains "software" (lower body) ||
              contains "deployment" (lower body)); [done|].
    by destruct (contains "business" (lower body) ||
                 contains "investment" (lower body)).
Qed.

(** ** Archives and the history reader *)

Lemma record_archive rr d files name text r :
  record (<[d := Dir (archive files name text r)]> rr) d
  = Some (metadata_doc name r).
Proof.
  unfold record. rewrite lookup_insert_eq. cbn [mbind option_bind document].
  rewrite archive_metadata. cbn [mbind option_bind].
  apply loads_dumps_metadata.
Qed.

Lemma decodable_archive files name text r :
  decodable (Dir (archive files name text r)).
Proof.
  intros doc. cbn [document]. rewrite archive_metadata. intros [= <-].
  unfold metadata_doc. rewrite loads_dumps_metadata. by eexists.
Qed.

Lemma get_run_history_returns w :
  (∀ d n, run w !! d = Some n → decodable n) →
  get_run_history w
  = Return (omap (record (run w)) (run_subdirs (run w))) w.
Proof.
  intros Hdec. unfold get_run_history. erewrite bind_return; [|done].
  erewrite bind_return.
  2:{ apply for_each_pure with (f := λ d, option_list (record (run w) d)).
      intros d _. apply load_metadata_spec, Hdec. }
  by rewrite concat_option_list.
Qed.

Lemma pass_decodable names w recs w' :
  for_each process_one names w = Return recs w' →
  (∀ d n, run w !! d = Some n → decodable n) →
  ∀ d n, run w' !! d = Some n → decodable n.
Proof.
  revert w recs. induction names as [|name names IH]; intros w recs H Hdec.
  { cbn in H. unfold mret, M_ret in H. by simplify_eq. }
  apply for_each_cons in H as (b & w1 & bs & H1 & H & ->).
  apply process_one_inv in H1 as (text & files & Hq & Hd & -> & ->).
  apply (IH _ _ H). intros d n. cbn [run after_one].
  intros [[_ <-]|[_ Hn]]%lookup_insert_Some;
    [apply decodable_archive|by eapply Hdec].
Qed.

(** X11.  The metadata document the archiver writes is decoded by the
    history reader into the object that was written, whatever characters
    the file name, the timestamp and the topic hold. *)
Theorem archived_metadata_reads_back (name : string) (r : result)
  (w w' : world) (fc : files_created) :
  move_to_run name r w = Return fc w' →
  ∃ d,
    metadata_file fc = ["run"; d; "execution_metadata.json"]
    ∧ record (run w') d = Some (metadata_doc name r)
    ∧ load_metadata (run w') d w' = Return [metadata_doc name r] w'.
Proof.
  intros H. pose proof H as H'.
  apply move_to_run_inv in H' as (text & files & Hq & Hd).
  rewrite (move_to_run_spec _ _ _ _ _ Hq Hd) in H. simplify_eq.
  eexists. split; [reflexivity|]. cbn [run].
  split; [apply record_archive|].
  unfold load_metadata. rewrite lookup_insert_eq, archive_metadata.
  unfold metadata_doc. by rewrite loads_dumps_metadata.
Qed.

Lemma archived_metadata_reads_back_witness :
  ∃ fc w' d,
    move_to_run "note.txt" (processed "note.txt" "new prompt" noon noon)
      reuse_world = Return fc w'
    ∧ record (run w') d
      = Some (metadata_json "note.txt" "2024-01-02T12:00:05"
                "generic_decision").
Proof.
  destruct (move_to_run "note.txt"
              (processed "note.txt" "new prompt" noon noon) reuse_world)
    as [e|fc w'] eqn:H; [by vm_compute in H|].
  destruct (archived_metadata_reads_back _ _ _ _ _ H) as (d & _ & Hr & _).
  exists fc, w', d. split; [reflexivity|exact Hr].
Defined.

(** X12.  A pass never leaves a metadata document that does not decode:
    when the history could be read before a pass that completes, it can be
    read after it. *)
Theorem history_readable_after_pass (w w' : world)
  (recs : list execution_record) :
  process_all_prompts w = Return recs w' →
  (∀ d n, run w !! d = Some n → decodable n) →
  (∀ d n, run w' !! d = Some n → decodable n)
  ∧ ∃ hist, get_run_history w' = Return hist w'.
Proof.
  unfold process_all_prompts. intros H Hdec.
  pose proof (pass_decodable _ _ _ _ H Hdec) as Hdec'.
  split; [done|]. eexists. by apply get_run_history_returns.
Qed.

Lemma history_readable_after_pass_witness :
  ∃ recs w' hist,
    process_all_prompts two_prompts = Return recs w'
    ∧ get_run_history w' = Return hist w'.
Proof.
  destruct (process_all_prompts two_prompts) as [e|recs w'] eqn:H;
    [by vm_compute in H|].
  destruct (history_readable_after_pass two_prompts w' recs H)
    as [_ [hist Hh]].
  { intros d n Hn. change ((∅ : gmap string node) !! d = Some n) in Hn.
    by rewrite lookup_empty in Hn. }
  exists recs, w', hist. split; [reflexivity|exact Hh].
Defined.

(** ** The sample prompts and [main] *)

Lemma write_prompt_spec name text w :
  (∀ entries, queued w !! name ≠ Some (Dir entries)) →
  write_prompt name text w
  = Return tt {| queued := <[name := File text]> (queued w); run := run w;
                 clock := clock w; ticks := ticks w |}.
Proof.
  intros H. unfold write_prompt. erewrite bind_return; [|done].
  destruct (queued w !! name) as [[c|entries]|] eqn:E; [done| |done].
  by destruct (H entries).
Qed.

Lemma sample_names_recognized f : f ∈ sample_names → recognized f.
Proof.
  intros Hf. repeat (apply elem_of_cons in Hf as [->|Hf];
                     [vm_compute; auto|]).
  by apply elem_of_nil in Hf.
Qed.

Lemma create_sample_prompts_spec w :
  (∀ f, is_Some (queued w !! f) → ¬ recognized f) →
  create_sample_prompts w
  = Return tt {| queued := with_samples (queued w); run := run w;
                 clock := clock w; ticks := ticks w |}.
Proof.
  intros Hq.
  assert (∀ f, f ∈ sample_names → queued w !! f = None) as Hnone.
  { intros f Hf. destruct (queued w !! f) eqn:E; [|done].
    destruct (Hq f); [by eexists|by apply sample_names_recognized]. }
  unfold create_sample_prompts. erewrite bind_return; [done|].
  unfold sample_prompts. cbn [for_each fst snd].
  erewrite bind_return.
  2:{ apply write_prompt_spec. intros entries.
      rewrite Hnone; [done|]. apply (bool_decide_unpack _). by vm_compute. }
  erewrite bind_return; [done|].
  erewrite bind_return.
  2:{ apply write_prompt_spec. intros entries. cbn [queued].
      rewrite lookup_insert_ne by done.
      rewrite Hnone; [done|]. apply (bool_decide_unpack _). by vm_compute. }
  erewrite bind_return; [done|].
  erewrite bind_return.
  2:{ apply write_prompt_spec. intros entries. cbn [queued].
      rewrite !lookup_insert_ne by done.
      rewrite Hnone; [done|]. apply (bool_decide_unpack _). by vm_compute. }
  by erewrite bind_return.
Qed.

Lemma with_samples_other q f :
  f ∉ sample_names → with_samples q !! f = q !! f.
Proof.
  intros Hf. unfold with_samples, sample_prompts. cbn [foldl fst snd].
  rewrite !lookup_insert_ne; [done|intros <-; apply Hf..];
    apply (bool_decide_unpack _); by vm_compute.
Qed.

Lemma with_samples_sample q name text :
  (name, text) ∈ sample_prompts → with_samples q !! name = Some (File text).
Proof.
  unfold with_samples, sample_prompts. cbn [foldl fst snd]. intros H.
  apply elem_of_cons in H as [[= -> ->]|H].
  { rewrite !lookup_insert_ne by done. apply lookup_insert_eq. }
  apply elem_of_cons in H as [[= -> ->]|H].
  { rewrite lookup_insert_ne by done. apply lookup_insert_eq. }
  apply elem_of_cons in H as [[= -> ->]|H]; [apply lookup_insert_eq|].
  by apply elem_of_nil in H.
Qed.

Lemma with_samples_nth q i p :
  sample_prompts !! i = Some p → with_samples q !! p.1 = Some (File p.2).
Proof.
  intros H. apply with_samples_sample. destruct p.
  by eapply list_elem_of_lookup_2.
Qed.

Lemma sample_names_prompts f :
  f ∈ sample_names ↔ ∃ text, (f, text) ∈ sample_prompts.
Proof.
  split.
  - intros Hf. unfold sample_prompts.
    apply elem_of_cons in Hf as [->|Hf];
      [eexists; rewrite !elem_of_cons; right; right; left; reflexivity|].
    apply elem_of_cons in Hf as [->|Hf];
      [eexists; rewrite !elem_of_cons; left; reflexivity|].
    apply elem_of_cons in Hf as [->|Hf];
      [eexists; rewrite !elem_of_cons; right; left; reflexivity|].
    by apply elem_of_nil in Hf.
  - intros [text H]. unfold sample_prompts in H.
    repeat (apply elem_of_cons in H as [[= -> ->]|H];
      [apply (bool_decide_unpack _); by vm_compute|]).
    by apply elem_of_nil in H.
Qed.

Lemma scanner_samples w :
  (∀ f, is_Some (queued w !! f) → ¬ recognized f) →
  get_queued_prompts
    {| queued := with_samples (queued w); run := run w; clock := clock w;
       ticks := ticks w |} = sample_names.
Proof.
  intros Hq. apply (StronglySorted_unique String.le).
  - apply StronglySorted_merge_sort; apply _.
  - apply (bool_decide_unpack _). by vm_compute.
  - apply NoDup_Permutation; [apply get_queued_prompts_NoDup| |].
    { apply (bool_decide_unpack _). by vm_compute. }
    intros f. rewrite elem_of_get_queued_prompts. cbn [queued].
    destruct (decide (f ∈ sample_names)) as [Hf|Hf].
    + split; [done|]. intros _. split; [|by apply sample_names_recognized].
      apply sample_names_prompts in Hf as [text Hf].
      rewrite (with_samples_sample _ _ _ Hf). by eexists.
    + rewrite with_samples_other by done. split; [|done].
      intros [Hs Hr]. by destruct (Hq f).
Qed.

Lemma Forall2_fmap_eq {A B C} (P : A → B → Prop) (g : B → C) (h : A → C)
  l k :
  Forall2 P l k → (∀ x y, P x y → g y = h x) → g <$> k = h <$> l.
Proof.
  intros H HP. induction H as [|x y l k Hxy _ IH]; [done|].
  cbn [fmap list_fmap]. f_equal; [by apply HP|done].
Qed.

(** X13.  Started on a queue without any entry of a recognized extension,
    [main] writes the three sample prompts and processes them at once: it
    returns their records in the order of their names, each sample is
    given the topic its name announces, and the queue ends as it began. *)
Theorem main_on_empty_queue (w : world) :
  (∀ f, is_Some (queued w !! f) → ¬ recognized f) →
  (∀ d c, d ∈ pass_dirs (clock w) (ticks w) sample_names →
          run w !! d ≠ Some (File c)) →
  ∃ recs w',
    main w = Return recs w'
    ∧ original_file <$> recs = sample_names
    ∧ rec_topic <$> recs
      = [business_investment; emergency_room; software_deployment]
    ∧ queued w' = queued w
    ∧ ticks w' = 9 + ticks w.
Proof.
  intros Hq Hrun.
  set (w1 := {| queued := with_samples (queued w); run := run w;
                clock := clock w; ticks := ticks w |}).
  destruct (pass_returns (queued w1) sample_names w1)
    as (recs & w' & Hret & Hall).
  { apply (bool_decide_unpack _). by vm_compute. }
  { done. }
  { intros f [text Hf]%sample_names_prompts. exists text.
    by apply with_samples_sample. }
  { exact Hrun. }
  exists recs, w'. split_and!.
  - unfold main. rewrite (get_queued_prompts_nil w Hq).
    rewrite bool_decide_eq_true_2 by done.
    erewrite bind_return; [|by apply create_sample_prompts_spec].
    assert (get_queued_prompts w1 = sample_names) as Hs
      by apply (scanner_samples w Hq).
    unfold process_all_prompts. fold w1. by rewrite Hs.
  - rewrite <- (list_fmap_id sample_names).
    apply (Forall2_fmap_eq _ _ _ _ _ Hall). by intros f rec [-> _].
  - erewrite (Forall2_fmap_eq _ rec_topic
               (λ f, match queued w1 !! f with
                     | Some (File text) => extract_topic (body_text text)
                     | _ => generic_decision
                     end) _ _ Hall).
    2:{ intros f rec (_ & text & -> & ->). done. }
    unfold sample_names. cbn [fmap list_fmap queued w1].
    pose proof (with_samples_nth (queued w) 0 _ eq_refl) as H0.
    pose proof (with_samples_nth (queued w) 1 _ eq_refl) as H1.
    pose proof (with_samples_nth (queued w) 2 _ eq_refl) as H2.
    cbn [fst snd] in H0, H1, H2. rewrite H0, H1, H2.
    vm_compute. reflexivity.
  - destruct (pass_queue _ _ _ _ Hret) as (_ & _ & Hqs).
    apply map_eq. intros f. rewrite Hqs. case_decide as Hf.
    + destruct (queued w !! f) eqn:E; [|done].
      destruct (Hq f); [by eexists|by apply sample_names_recognized].
    + cbn [queued w1]. by apply with_samples_other.
  - destruct (pass_queue _ _ _ _ Hret) as (_ & -> & _). done.
Qed.

Lemma main_on_empty_queue_witness :
  ∃ recs w',
    main {| queued := {[ "notes.json" := File "{}" ]}; run := ∅;
            clock := λ _, noon; ticks := 0 |} = Return recs w'
    ∧ rec_topic <$> recs
      = [business_investment; emergency_room; software_deployment]
    ∧ queued w' = {[ "notes.json" := File "{}" ]}.
Proof.
  destruct (main_on_empty_queue
              {| queued := {[ "notes.json" := File "{}" ]}; run := ∅;
                 clock := λ _, noon; ticks := 0 |})
    as (recs & w' & Hm & _ & Ht & Hq & _).
  - cbn [queued]. intros f [n Hf].
    apply lookup_singleton_Some in Hf as [<- _]. vm_compute. by intros [|].
  - intros d c _. cbn [run]. by rewrite lookup_empty.
  - exists recs, w'. split; [exact Hm|]. split; [exact Ht|exact Hq].
Defined.

(** ** Saving the outputs of the agent *)

Lemma sapp_inj_r a b s : a +:+ s = b +:+ s → a = b.
Proof.
  revert b. induction a as [|c a IH]; intros [|d b] H.
  - done.
  - exfalso. apply (f_equal String.length) in H.
    rewrite sapp_empty_l, length_sapp in H. cbn [String.length] in H. lia.
  - exfalso. apply (f_equal String.length) in H.
    rewrite sapp_empty_l, length_sapp in H. cbn [String.length] in H. lia.
  - rewrite !sapp_cons in H. injection H as -> H. f_equal. by apply IH.
Qed.

Lemma endswith_app suffix a s :
  endswith suffix s = true → endswith suffix (a +:+ s) = true.
Proof.
  intros H. induction a as [|c a IH]; [by rewrite sapp_empty_l|].
  rewrite sapp_cons. cbn [endswith]. by rewrite IH, orb_true_r.
Qed.

Lemma logic_file_flowchart_file a b :
  a +:+ "_logic.txt" ≠ b +:+ "_flowchart.md".
Proof.
  intros H. apply (endswith_txt_md (a +:+ "_logic.txt")).
  - by apply endswith_app.
  - rewrite H. by apply endswith_app.
Qed.

Lemma flowchart_file_logic_file a b :
  a +:+ "_flowchart.md" ≠ b +:+ "_logic.txt".
Proof. intros H. symmetry in H. by apply logic_file_flowchart_file in H. Qed.

Lemma written_cons e exs files :
  written (e :: exs) files
  = written exs (<[e.1 +:+ "_flowchart.md" := e.2.2]>
                   (<[e.1 +:+ "_logic.txt" := e.2.1]> files)).
Proof. done. Qed.

Lemma written_names_cons e exs :
  written_names (e :: exs)
  = (e.1 +:+ "_logic.txt") :: (e.1 +:+ "_flowchart.md") :: written_names exs.
Proof. done. Qed.

Lemma saved_lookup topic logic chart (files : gmap string string) :
  let files' := <[topic +:+ "_flowchart.md" := chart]>
                  (<[topic +:+ "_logic.txt" := logic]> files) in
  files' !! (topic +:+ "_logic.txt") = Some logic
  ∧ files' !! (topic +:+ "_flowchart.md") = Some chart.
Proof.
  cbn zeta. split; [|apply lookup_insert_eq].
  rewrite lookup_insert_ne by apply flowchart_file_logic_file.
  apply lookup_insert_eq.
Qed.

Lemma written_other exs files f :
  f ∉ written_names exs → written exs files !! f = files !! f.
Proof.
  revert files. induction exs as [|e exs IH]; intros files Hf; [done|].
  rewrite written_names_cons in Hf.
  apply not_elem_of_cons in Hf as [H1 Hf].
  apply not_elem_of_cons in Hf as [H2 Hf].
  rewrite written_cons, IH by done. by rewrite !lookup_insert_ne.
Qed.

Lemma written_same exs files files' f :
  f ∈ written_names exs → written exs files !! f = written exs files' !! f.
Proof.
  revert files files'. induction exs as [|e exs IH]; intros files files' Hf;
    [by apply elem_of_nil in Hf|].
  rewrite !written_cons.
  destruct (decide (f ∈ written_names exs)) as [Hin|Hout]; [by apply IH|].
  rewrite !written_other by done. rewrite written_names_cons in Hf.
  apply elem_of_cons in Hf as [->|Hf].
  { by rewrite !(proj1 (saved_lookup _ _ _ _)). }
  apply elem_of_cons in Hf as [->|Hf]; [|done].
  by rewrite !(proj2 (saved_lookup _ _ _ _)).
Qed.

Lemma written_idemp exs files : written exs (written exs files) = written exs files.
Proof.
  apply map_eq. intros f.
  destruct (decide (f ∈ written_names exs)) as [Hin|Hout].
  - by apply written_same.
  - by rewrite written_other.
Qed.

Lemma written_names_topic exs topic :
  topic +:+ "_logic.txt" ∈ written_names exs
  ∨ topic +:+ "_flowchart.md" ∈ written_names exs →
  topic ∈ exs.*1.
Proof.
  unfold written_names. rewrite !list_elem_of_bind.
  intros [(e & He & Hin)|(e & He & Hin)];
    apply list_elem_of_fmap; exists e; (split; [|done]);
    apply elem_of_cons in He as [He|He].
  - by apply sapp_inj_r in He.
  - apply list_elem_of_singleton in He.
    by apply logic_file_flowchart_file in He.
  - symmetry in He. by apply logic_file_flowchart_file in He.
  - apply list_elem_of_singleton in He. by apply sapp_inj_r in He.
Qed.

Lemma written_example exs files topic logic chart :
  NoDup exs.*1 → (topic, (logic, chart)) ∈ exs →
  written exs files !! (topic +:+ "_logic.txt") = Some logic
  ∧ written exs files !! (topic +:+ "_flowchart.md") = Some chart.
Proof.
  revert files. induction exs as [|e exs IH]; intros files Hnd Hin;
    [by apply elem_of_nil in Hin|].
  cbn [fmap list_fmap] in Hnd. apply NoDup_cons in Hnd as [He Hnd].
  rewrite written_cons.
  apply elem_of_cons in Hin as [<-|Hin]; [|by apply IH].
  cbn [fst snd] in *.
  rewrite !written_other
    by (intros Hn; apply He, written_names_topic; auto).
  apply saved_lookup.
Qed.

Lemma split_absent c x : has_char c x = false → split c x = [x].
Proof.
  induction x as [|d x IH]; [done|]. cbn [has_char split].
  destruct (Ascii.eqb d c); [done|]. intros ->%IH. done.
Qed.

Lemma parts_simple s :
  has_char "/" s = false → s ≠ "" → s ≠ "." → s ≠ ".." →
  parts s = Some [s].
Proof.
  intros Hs H0 H1 H2. unfold parts.
  destruct (startswith "/" s) eqn:E.
  { apply startswith_spec in E as [b ->]. by rewrite sapp_cons in Hs. }
  rewrite split_absent by done.
  rewrite filter_cons_True, filter_nil by done.
  rewrite bool_decide_eq_false_2; [done|].
  intros Hdots%list_elem_of_singleton. by destruct H2.
Qed.

Lemma parts_suffixed topic suffix :
  has_char "/" topic = false → has_char "/" suffix = false →
  3 ≤ String.length suffix →
  parts (topic +:+ suffix) = Some [topic +:+ suffix].
Proof.
  intros Ht Hs Hlen.
  assert (3 ≤ String.length (topic +:+ suffix)) as Hl
    by (rewrite length_sapp; lia).
  apply parts_simple.
  - by rewrite has_char_app, Ht, Hs.
  - intros E. rewrite E in Hl. cbn in Hl. lia.
  - intros E. rewrite E in Hl. cbn in Hl. lia.
  - intros E. rewrite E in Hl. cbn in Hl. lia.
Qed.

Lemma save_dual_outputs_spec topic logic_text mermaid_chart output_dir name
  cwd files :
  parts output_dir = Some [name] →
  has_char "/" topic = false →
  existing_files cwd name = Some files →
  save_dual_outputs topic logic_text mermaid_chart output_dir cwd
  = Some (inr (([name; topic +:+ "_logic.txt"],
                [name; topic +:+ "_flowchart.md"]),
               <[name :=
                   Dir (<[topic +:+ "_flowchart.md" := mermaid_chart]>
                          (<[topic +:+ "_logic.txt" := logic_text]> files))]>
                 cwd)).
Proof.
  intros Hout Ht Hf. unfold save_dual_outputs. rewrite Hout.
  rewrite !parts_suffixed by (done || cbn; lia).
  unfold existing_files in Hf. cbn [mkdir_path app].
  destruct (cwd !! name) as [[c|fs]|] eqn:Hd; simplify_eq.
  - cbn [write_file]. rewrite Hd. cbn [write_file].
    rewrite lookup_insert_eq. by rewrite insert_insert_eq.
  - cbn [write_file]. rewrite lookup_insert_eq. cbn [write_file].
    rewrite lookup_insert_eq. by rewrite !insert_insert_eq.
Qed.

Lemma save_dual_outputs_taken topic logic_text mermaid_chart output_dir name
  cwd c :
  parts output_dir = Some [name] → cwd !! name = Some (File c) →
  save_dual_outputs topic logic_text mermaid_chart output_dir cwd
  = Some (inl FileExistsError).
Proof.
  intros Hout Hd. unfold save_dual_outputs. rewrite Hout.
  cbn [mkdir_path]. by rewrite Hd.
Qed.

Lemma save_dual_outputs_existing topic logic_text mermaid_chart output_dir
  name cwd p cwd' :
  parts output_dir = Some [name] →
  save_dual_outputs topic logic_text mermaid_chart output_dir cwd
  = Some (inr (p, cwd')) →
  ∃ files, existing_files cwd name = Some files.
Proof.
  intros Hout H. unfold existing_files.
  destruct (cwd !! name) as [[c|fs]|] eqn:Hd; [|by eexists..].
  by rewrite (save_dual_outputs_taken _ _ _ _ _ _ _ Hout Hd) in H.
Qed.

(** X14.  For topics without a path separator, saving the outputs of one
    topic never overwrites those of another: after the outputs of two
    different topics were saved into the same output directory, it holds
    the logic text and the flowchart of both. *)
Theorem save_dual_outputs_distinct_topics
  (t1 l1 m1 t2 l2 m2 output_dir name : string)
  (cwd cwd1 cwd2 : gmap string node) (p1 p2 : list string * list string) :
  parts output_dir = Some [name] →
  has_char "/" t1 = false → has_char "/" t2 = false → t1 ≠ t2 →
  save_dual_outputs t1 l1 m1 output_dir cwd = Some (inr (p1, cwd1)) →
  save_dual_outputs t2 l2 m2 output_dir cwd1 = Some (inr (p2, cwd2)) →
  ∃ files,
    cwd2 !! name = Some (Dir files)
    ∧ files !! (t1 +:+ "_logic.txt") = Some l1
    ∧ files !! (t1 +:+ "_flowchart.md") = Some m1
    ∧ files !! (t2 +:+ "_logic.txt") = Some l2
    ∧ files !! (t2 +:+ "_flowchart.md") = Some m2.
Proof.
  intros Hout Ht1 Ht2 Hne H1 H2.
  destruct (save_dual_outputs_existing _ _ _ _ _ _ _ _ Hout H1)
    as [files Hf].
  rewrite (save_dual_outputs_spec _ _ _ _ _ _ _ Hout Ht1 Hf) in H1.
  injection H1 as <- <-.
  erewrite save_dual_outputs_spec in H2;
    [|done|done|unfold existing_files; by rewrite lookup_insert_eq].
  injection H2 as <- <-.
  eexists. split; [apply lookup_insert_eq|].
  assert (t1 +:+ "_logic.txt" ≠ t2 +:+ "_logic.txt")
    by (by intros ?%sapp_inj_r).
  assert (t1 +:+ "_flowchart.md" ≠ t2 +:+ "_flowchart.md")
    by (by intros ?%sapp_inj_r).
  pose proof (logic_file_flowchart_file t1 t2).
  pose proof (logic_file_flowchart_file t2 t1).
  pose proof (logic_file_flowchart_file t1 t1).
  pose proof (logic_file_flowchart_file t2 t2).
  split_and!.
  - rewrite !lookup_insert_ne by done. apply lookup_insert_eq.
  - rewrite !lookup_insert_ne by done. apply lookup_insert_eq.
  - rewrite lookup_insert_ne by done. apply lookup_insert_eq.
  - apply lookup_insert_eq.
Qed.

Lemma save_dual_outputs_distinct_topics_witness :
  ∃ p1 cwd1 p2 cwd2 (files : gmap string string),
    save_dual_outputs "alpha" "IF a THEN b" "a --> b" "./out" ∅
    = Some (inr (p1, cwd1))
    ∧ save_dual_outputs "beta" "IF c THEN d" "c --> d" "./out" cwd1
      = Some (inr (p2, cwd2))
    ∧ cwd2 !! "out" = Some (Dir files)
    ∧ files !! "alpha_logic.txt" = Some "IF a THEN b"
    ∧ files !! "alpha_flowchart.md" = Some "a --> b".
Proof.
  destruct (save_dual_outputs "alpha" "IF a THEN b" "a --> b" "./out" ∅)
    as [[e|[p1 cwd1]]|] eqn:H1; [by vm_compute in H1| |by vm_compute in H1].
  destruct (save_dual_outputs "beta" "IF c THEN d" "c --> d" "./out" cwd1)
    as [[e|[p2 cwd2]]|] eqn:H2.
  { vm_compute in H1. injection H1 as _ <-. by vm_compute in H2. }
  2:{ vm_compute in H1. injection H1 as _ <-. by vm_compute in H2. }
  destruct (save_dual_outputs_distinct_topics
              "alpha" "IF a THEN b" "a --> b" "beta" "IF c THEN d" "c --> d"
              "./out" "out" ∅ cwd1 cwd2 p1 p2)
    as (files & Hd & Hl & Hm & _); [reflexivity..|done|exact H1|exact H2|].
  exists p1, cwd1, p2, cwd2, files.
  split; [reflexivity|]. split; [exact H2|].
  split; [exact Hd|]. split; [exact Hl|exact Hm].
Defined.

(** Two topics that differ only by a leading [./] name the same files: the
    second call overwrites what the first one wrote. *)
Example save_dual_outputs_same_files :
  ∃ p1 cwd1 p2 cwd2,
    save_dual_outputs "a" "first" "one" "out" ∅ = Some (inr (p1, cwd1))
    ∧ save_dual_outputs "./a" "second" "two" "out" cwd1
      = Some (inr (p2, cwd2))
    ∧ p1 = p2
    ∧ cwd2 !! "out"
      = Some (Dir {[ "a_logic.txt" := "second";
                     "a_flowchart.md" := "two" ]}).
Proof.
  eexists _, _, _, _. split; [vm_compute; reflexivity|].
  split; [vm_compute; reflexivity|].
  split; [reflexivity|]. vm_compute. reflexivity.
Qed.

Lemma generate_spec exs output_dir name cwd files :
  Forall (λ e, has_char "/" e.1 = false) exs →
  parts output_dir = Some [name] →
  existing_files cwd name = Some files →
  generate exs output_dir cwd
  = Some (inr (written_paths exs name,
               if decide (exs = []) then cwd
               else <[name := Dir (written exs files)]> cwd)).
Proof.
  intros Hall Hout. revert cwd files.
  induction Hall as [|[topic [logic chart]] exs Htopic _ IH];
    intros cwd files Hf; [done|].
  cbn [generate fst] in *.
  rewrite (save_dual_outputs_spec _ _ _ _ _ _ _ Hout Htopic Hf).
  erewrite IH; [|unfold existing_files; by rewrite lookup_insert_eq].
  rewrite (decide_False (P := (topic, (logic, chart)) :: exs = [])) by done.
  case_decide as He; [by subst|]. by rewrite insert_insert_eq.
Qed.

Lemma examples_simple :
  Forall (λ e : string * (string * string), has_char "/" e.1 = false)
    examples.
Proof. unfold examples. repeat constructor. Qed.

(** X15.  For an output directory given by a relative path of one
    component (as the default [./decision_outputs]) that is absent or a
    directory, [generate_all_examples] succeeds: it returns the six paths
    in the order of the examples, leaves in the directory the logic text
    and the flowchart of each of the three topics, keeps every other file
    of the directory and every other entry beside it, and run a second time
    changes nothing. *)
Theorem generate_all_examples_writes (output_dir name : string)
  (cwd : gmap string node) (files : gmap string string) :
  parts output_dir = Some [name] →
  existing_files cwd name = Some files →
  let files' := written examples files in
  let cwd' := <[name := Dir files']> cwd in
  generate_all_examples output_dir cwd
  = Some (inr (written_paths examples name, cwd'))
  ∧ length (written_paths examples name) = 6
  ∧ (∀ topic logic chart, (topic, (logic, chart)) ∈ examples →
       files' !! (topic +:+ "_logic.txt") = Some logic
       ∧ files' !! (topic +:+ "_flowchart.md") = Some chart)
  ∧ (∀ f, f ∉ written_names examples → files' !! f = files !! f)
  ∧ (∀ d, d ≠ name → cwd' !! d = cwd !! d)
  ∧ generate_all_examples output_dir cwd'
    = Some (inr (written_paths examples name, cwd')).
Proof.
  intros Hout Hf files' cwd'. split_and!.
  - unfold generate_all_examples.
    by rewrite (generate_spec _ _ _ _ _ examples_simple Hout Hf).
  - reflexivity.
  - intros topic logic chart. apply written_example.
    apply (bool_decide_unpack _). by vm_compute.
  - apply written_other.
  - intros d Hd. unfold cwd'. by rewrite lookup_insert_ne.
  - unfold generate_all_examples.
    erewrite generate_spec;
      [|apply examples_simple|done
       |unfold existing_files, cwd'; by rewrite lookup_insert_eq].
    rewrite decide_False by done. unfold cwd', files'.
    by rewrite written_idemp, insert_insert_eq.
Qed.

Lemma generate_all_examples_writes_witness :
  ∃ cwd' (files' : gmap string string),
    generate_all_examples "./decision_outputs"
      {[ "decision_outputs" := Dir {[ "notes.txt" := "kept" ]} ]}
    = Some (inr (written_paths examples "decision_outputs", cwd'))
    ∧ cwd' !! "decision_outputs" = Some (Dir files')
    ∧ files' !! "emergency_room_logic.txt"
      = Some DualOutputDecisionAgent.emergency_room_logic_text
    ∧ files' !! "notes.txt" = Some "kept".
Proof.
  destruct (generate_all_examples_writes "./decision_outputs"
              "decision_outputs"
              {[ "decision_outputs" := Dir {[ "notes.txt" := "kept" ]} ]}
              {[ "notes.txt" := "kept" ]})
    as (Hg & _ & Hex & Hother & _); [reflexivity..|].
  eexists _, _. split; [exact Hg|]. split; [apply lookup_insert_eq|].
  split.
  - apply (Hex "emergency_room"
             DualOutputDecisionAgent.emergency_room_logic_text
             DualOutputDecisionAgent.emergency_room_mermaid_chart).
    left.
  - rewrite Hother; [reflexivity|].
    apply (bool_decide_unpack _). by vm_compute.
Defined.



(** X19.  When the output directory is given by a path of several
    components whose first one does not exist, [generate_all_examples]
    fails with [FileNotFoundError]: the directory is made without its
    parents. *)
Theorem generate_all_examples_missing_parent (output_dir parent child : string)
  (rest : list string) (cwd : gmap string node) :
  parts output_dir = Some (parent :: child :: rest) →
  cwd !! parent = None →
  generate_all_examples output_dir cwd = Some (inl FileNotFoundError).
Proof.
  intros Hout Hp. unfold generate_all_examples, examples. cbn [generate].
  unfold DualOutputDecisionAgent.create_emergency_room_logic.
  unfold save_dual_outputs. rewrite Hout. cbn [mkdir_path]. by rewrite Hp.
Qed.

Lemma generate_all_examples_missing_parent_witness :
  generate_all_examples "missing/out" {[ "other" := Dir ∅ ]}
  = Some (inl FileNotFoundError).
Proof.
  by apply (generate_all_examples_missing_parent "missing/out" "missing"
              "out" []).
Defined.

(** ** Records and the files they name *)

Lemma insert_is_Some_mono (m : gmap string string) i x j :
  is_Some (m !! j) → is_Some (<[i := x]> m !! j).
Proof.
  intros H. apply lookup_insert_is_Some.
  destruct (decide (i = j)); [by left|by right].
Qed.

Lemma archive_is_Some files name text r f :
  is_Some (files !! f) → is_Some (archive files name text r !! f).
Proof. intros H. unfold archive. by do 4 apply insert_is_Some_mono. Qed.

Lemma archive_created files name text r rr d :
  Forall (λ path, is_Some (file_at (<[d := Dir (archive files name text r)]> rr)
                             path))
    (paths_of (created d name)).
Proof.
  unfold paths_of, created.
  cbn [prompt_file logic_file mermaid_file metadata_file].
  repeat apply Forall_cons_2; [..|apply Forall_nil_2];
    cbn [file_at String.eqb Ascii.eqb Bool.eqb]; rewrite lookup_insert_eq.
  - unfold archive. do 3 apply insert_is_Some_mono.
    rewrite lookup_insert_eq. by eexists.
  - rewrite archive_logic. by eexists.
  - rewrite archive_flowchart. by eexists.
  - rewrite archive_metadata. by eexists.
Qed.

Lemma after_one_keeps name text files w path :
  existing_files (run w)
    (run_subdir_name (clock w (S (S (ticks w)))) name) = Some files →
  is_Some (file_at (run w) path) →
  is_Some (file_at (run (after_one name text files w)) path).
Proof.
  intros Hd. destruct path as [|root [|d [|f [|]]]]; try done.
  cbn [file_at run after_one]. destruct (String.eqb root "run"); [|done].
  set (d0 := run_subdir_name (clock w (S (S (ticks w)))) name) in *.
  destruct (decide (d = d0)) as [->|Hne].
  - rewrite lookup_insert_eq. unfold existing_files in Hd.
    destruct (run w !! d0) as [[c|fs]|]; [done| |by intros []].
    simplify_eq. apply archive_is_Some.
  - by rewrite lookup_insert_ne.
Qed.

Lemma pass_keeps names w recs w' path :
  for_each process_one names w = Return recs w' →
  is_Some (file_at (run w) path) → is_Some (file_at (run w') path).
Proof.
  revert w recs. induction names as [|name names IH]; intros w recs H Hp.
  { cbn in H. unfold mret, M_ret in H. by simplify_eq. }
  apply for_each_cons in H as (b & w1 & bs & H1 & H & ->).
  apply process_one_inv in H1 as (text & files & Hq & Hd & -> & ->).
  apply (IH _ _ H). by apply after_one_keeps.
Qed.

Lemma pass_records_exist names w recs w' :
  for_each process_one names w = Return recs w' →
  Forall (λ rec, Forall (λ path, is_Some (file_at (run w') path))
                   (paths_of (rec_files_created rec))) recs.
Proof.
  revert w recs. induction names as [|name names IH]; intros w recs H.
  { cbn in H. unfold mret, M_ret in H. simplify_eq. constructor. }
  apply for_each_cons in H as (b & w1 & bs & H1 & H & ->).
  apply process_one_inv in H1 as (text & files & Hq & Hd & -> & ->).
  constructor; [|by eapply IH].
  cbn [rec_files_created record_of].
  eapply Forall_impl; [apply archive_created|].
  intros path Hp. eapply pass_keeps; [exact H|]. exact Hp.
Qed.

(** X17.  The records of a pass that completes never dangle: each of the
    four paths in the [files_created] of every record names a file that
    exists under the run root when the pass returns, also when several
    prompts of the pass ended up in one directory. *)
Theorem pass_records_name_existing_files (w w' : world)
  (recs : list execution_record) (rec : execution_record)
  (path : list string) :
  process_all_prompts w = Return recs w' →
  rec ∈ recs → path ∈ paths_of (rec_files_created rec) →
  is_Some (file_at (run w') path).
Proof.
  unfold process_all_prompts. intros H Hrec Hpath.
  pose proof (pass_records_exist _ _ _ _ H) as Hall.
  rewrite Forall_forall in Hall. specialize (Hall rec Hrec).
  rewrite Forall_forall in Hall. by apply Hall.
Qed.

Lemma pass_records_name_existing_files_witness :
  ∃ recs w',
    process_all_prompts two_prompts = Return recs w'
    ∧ is_Some (file_at (run w') ["run"; "20240102_120005_a"; "a.md"]).
Proof.
  destruct (process_all_prompts two_prompts) as [e|recs w'] eqn:H;
    [by vm_compute in H|].
  exists recs, w'. split; [reflexivity|].
  apply (pass_records_name_existing_files two_prompts w' recs
           (record_of "a.md" "first prompt" two_prompts) _ H).
  - vm_compute in H. injection H as <- _. left.
  - left.
Defined.

(** ** Letter case *)

Lemma lower_char_idemp c : lower_char (lower_char c) = lower_char c.
Proof. by destruct c as [[] [] [] [] [] [] [] []]. Qed.

Lemma lower_idemp s : lower (lower s) = lower s.
Proof.
  induction s as [|c s IH]; [done|]. cbn [lower].
  by rewrite lower_char_idemp, IH.
Qed.

(** X18.  Classification ignores letter case: the topic and the
    templates of a body are those of the body in lower case, and two
    bodies that differ in letter case only get the same topic and the same
    templates. *)
Theorem classification_ignores_case (body : string) :
  extract_topic (lower body) = extract_topic body
  ∧ select_logic (lower body) = select_logic body
  ∧ ∀ other, lower other = lower body →
      extract_topic other = extract_topic body
      ∧ select_logic other = select_logic body.
Proof.
  unfold extract_topic, select_logic. rewrite lower_idemp.
  split; [done|]. split; [done|]. by intros other ->.
Qed.
